(** * polars-query-server: the load-test harness

    A shallow embedding of [load_test/run_load_test.py]: the request
    dispatcher [send_query], the fan-out of [asyncio.gather], the summary
    expressions of [main] (min, mean, 0.95-quantile, throughput) and the two
    outputs of [main] (the printed summary and the written CSV file).

    Python floats are IEEE binary64 values; they are Rocq's primitive floats
    here, so every concrete run below computes what the script computes.  The
    column operations are written once over a small number interface and used
    at two instances: [float] (what the script runs) and [Qc] (the same
    expressions in exact rational arithmetic). *)

From Stdlib Require Import ZArith QArith Qcanon Floats Lia Permutation.
From Stdlib Require Import Ascii String Sorted.
From stdpp Require Import base option list strings pretty gmap.

Set Warnings "-inexact-float,-register-all".

(** ** Numbers *)

(** The operations the script applies to a duration. [nvalid] recognises the
    values a duration can take: a difference of two readings of a monotonic
    clock is finite and not negative. *)
Class Number (T : Type) := {
  nzero : T;
  nadd : T -> T -> T;
  nsub : T -> T -> T;
  nmul : T -> T -> T;
  ndiv : T -> T -> T;
  nof_nat : nat -> T;
  nleb : T -> T -> bool;
  nvalid : T -> bool
}.

(** The row count, an unsigned integer, cast to a float for the division. *)
Definition float_of_nat (n : nat) : float :=
  PrimFloat.of_uint63 (Uint63.of_Z (Z.of_nat n)).

(** Positive zero, positive subnormal or positive normal: neither NaN, nor
    infinite, nor negative (negative zero included). *)
Definition float_is_duration (x : float) : bool :=
  match PrimFloat.classify x with
  | PZero | PSubn | PNormal => true
  | _ => false
  end.

#[export] Instance float_number : Number float := {|
  nzero := 0%float;
  nadd := PrimFloat.add;
  nsub := PrimFloat.sub;
  nmul := PrimFloat.mul;
  ndiv := PrimFloat.div;
  nof_nat := float_of_nat;
  nleb := PrimFloat.leb;
  nvalid := float_is_duration
|}.

Definition Qc_leb (a b : Qc) : bool := Qle_bool a b.

Definition Qc_of_nat (n : nat) : Qc := Q2Qc (inject_Z (Z.of_nat n)).

(** Exact rational arithmetic. Division by zero is [0] in [Qc]; the exact
    instance is only used on non-empty columns, where the divisor of the mean
    is the positive row count. *)
#[export] Instance Qc_number : Number Qc := {|
  nzero := 0%Qc;
  nadd := Qcplus;
  nsub := Qcminus;
  nmul := Qcmult;
  ndiv := Qcdiv;
  nof_nat := Qc_of_nat;
  nleb := Qc_leb;
  nvalid := fun _ => true
|}.

(** ** Column operations of the summary *)

Section Series.
Context {T : Type} {num : Number T}.

Definition nmin (a b : T) : T := if nleb a b then a else b.
Definition nmax (a b : T) : T := if nleb a b then b else a.

(** [pl.col(c).min()]: null on an empty column. *)
Definition col_min (l : list T) : option T :=
  match l with
  | [] => None
  | x :: xs => Some (fold_left nmin xs x)
  end.

(** The largest value; the script does not compute it, the invariants of the
    summary are stated with it. *)
Definition col_max (l : list T) : option T :=
  match l with
  | [] => None
  | x :: xs => Some (fold_left nmax xs x)
  end.

(** [df[c].sum()]: the values are accumulated from zero in column order (the
    library sums a column shorter than its pairwise block of 128 values left
    to right). *)
Definition col_sum (l : list T) : T := fold_left nadd l nzero.

(** [pl.col(c).mean()]: the sum divided by the number of rows. *)
Definition col_mean (l : list T) : option T :=
  match l with
  | [] => None
  | _ => Some (ndiv (col_sum l) (nof_nat (length l)))
  end.

Fixpoint insert_sorted (x : T) (l : list T) : list T :=
  match l with
  | [] => [x]
  | y :: ys => if nleb x y then x :: y :: ys else y :: insert_sorted x ys
  end.

(** The column in ascending order. *)
Definition sort_values (l : list T) : list T := foldr insert_sorted [] l.

(** The index [quantile(0.95)] reads in the sorted column of [n] rows. The
    call passes no interpolation argument, so the library default applies:
    ["nearest"], the rank [0.95 * (n - 1)] rounded to the nearest integer, a
    half rounding away from zero. With [0.95 = 19/20] this is
    [floor ((19 * (n - 1) + 10) / 20)]; the library's binary64 product
    [(n - 1) * 0.95] rounds to the same integer for every column length that
    fits in memory. *)
Definition nearest_rank (n : nat) : nat := (19 * (n - 1) + 10) / 20.

(** [pl.col(c).quantile(0.95)]. *)
Definition col_quantile95 (l : list T) : option T :=
  sort_values l !! nearest_rank (length l).

(** [pl.count() / df[c].sum()]. *)
Definition throughput (l : list T) : T :=
  ndiv (nof_nat (length l)) (col_sum l).

(** The 0.95-quantile by linear interpolation, following the specification's
    words: rank [0.95 * (n - 1)], its integer part [lo] and fractional part
    [frac / 20]; the value is [s[lo] + frac/20 * (s[lo+1] - s[lo])], and
    [s[lo]] itself when the rank is an integer. *)
Definition p95_linear (l : list T) : option T :=
  let s := sort_values l in
  let lo := (19 * (length l - 1)) / 20 in
  let frac := (19 * (length l - 1)) mod 20 in
  match s !! lo with
  | None => None
  | Some a =>
    if Nat.eqb frac 0 then Some a
    else match s !! S lo with
         | None => None
         | Some b =>
           Some (nadd a (nmul (ndiv (nof_nat frac) (nof_nat 20)) (nsub b a)))
         end
  end.
End Series.

(** ** The summary record *)

(** One row with the four aliased columns of [df.select([...])], in the order
    the expressions are listed. *)
Record Summary (T : Type) := mkSummary {
  s_min : T;
  s_avg : T;
  s_p95 : T;
  s_throughput : T
}.
Arguments mkSummary {T} _ _ _ _.
Arguments s_min {T} _.
Arguments s_avg {T} _.
Arguments s_p95 {T} _.
Arguments s_throughput {T} _.

(** The four expressions over the duration column; [None] when one of the
    aggregates is null (an empty column). *)
Definition summarize {T : Type} {num : Number T} (durations : list T)
  : option (Summary T) :=
  match col_min durations, col_mean durations, col_quantile95 durations with
  | Some mn, Some av, Some p => Some (mkSummary mn av p (throughput durations))
  | _, _, _ => None
  end.

(** ** Python values and the dispatcher *)

(** What [resp.json()] returns. A float is held by its [repr], the shortest
    decimal that reads back to it: the script only ever prints it. A dict is
    its items in insertion order, the keys distinct. Text is ASCII. *)
Inductive pyval :=
| PyNone
| PyBool (b : bool)
| PyInt (z : Z)
| PyFloat (repr : string)
| PyStr (s : string)
| PyList (items : list pyval)
| PyDict (items : list (string * pyval)).

Definition newline : string := String (ascii_of_nat 10) EmptyString.

Definition URL : string := "http://127.0.0.1:3000/run-query".

Definition Query := string.

Definition QUERIES : list Query :=
  replicate 10
    ("df = pl.read_parquet('data/sample_0.parquet')" ++ newline
       ++ "df = df.select(['name','age'])")%string.

Definition double_quote : ascii := ascii_of_nat 34.

Definition hex_digit (n : nat) : ascii :=
  ascii_of_nat (if Nat.ltb n 10 then 48 + n else 87 + n).

Definition contains_char (c : ascii) (s : string) : bool :=
  existsb (Ascii.eqb c) (list_ascii_of_string s).

(** [repr] of one character of a string quoted with [quote]. *)
Definition repr_char (quote c : ascii) : string :=
  let n := nat_of_ascii c in
  if Ascii.eqb c "\"%char then "\\"%string
  else if Ascii.eqb c quote then String "\"%char (String c EmptyString)
  else if Nat.eqb n 9 then "\t"%string
  else if Nat.eqb n 10 then "\n"%string
  else if Nat.eqb n 13 then "\r"%string
  else if Nat.ltb n 32 || Nat.eqb n 127
       then String "\"%char (String "x"%char
              (String (hex_digit (n / 16)) (String (hex_digit (n mod 16)) EmptyString)))
  else String c EmptyString.

(** [repr] of a string: single quotes, unless the text has a single quote and
    no double quote. *)
Definition repr_str (s : string) : string :=
  let quote :=
    if contains_char "'"%char s && negb (contains_char double_quote s)
    then double_quote else "'"%char in
  (String quote EmptyString
     ++ String.concat EmptyString
          (map (repr_char quote) (list_ascii_of_string s))
     ++ String quote EmptyString)%string.

Fixpoint py_repr (v : pyval) : string :=
  match v with
  | PyNone => "None"
  | PyBool true => "True"
  | PyBool false => "False"
  | PyInt z => pretty z
  | PyFloat r => r
  | PyStr s => repr_str s
  | PyList l => "[" ++ String.concat ", " (map py_repr l) ++ "]"
  | PyDict d =>
    "{" ++ String.concat ", "
             (map (fun kv => match kv with
                             | (k, x) => repr_str k ++ ": " ++ py_repr x
                             end) d) ++ "}"
  end%string.

(** [str(v)]: a string is itself, anything else is its [repr]. *)
Definition py_str (v : pyval) : string :=
  match v with
  | PyStr s => s
  | _ => py_repr v
  end.

(** [d.get(key, default)]. *)
Fixpoint dict_get (d : list (string * pyval)) (key : string) (default : pyval)
  : pyval :=
  match d with
  | [] => default
  | (k, x) :: rest => if String.eqb k key then x else dict_get rest key default
  end.

(** The exceptions the script can meet; it catches none of them. *)
Inductive exn :=
| TransportError
| JSONDecodeError
| AttributeError
| ColumnNotFoundError (column : string)
| OSError
| ComputeError.

Inductive result (A : Type) :=
| Ok (a : A)
| Raise (e : exn).
Arguments Ok {A} _.
Arguments Raise {A} _.

(** Sequencing: an exception ends the computation (no handler anywhere). *)
#[export] Instance result_bind : MBind result :=
  fun A B (k : A -> result B) (m : result A) =>
    match m with
    | Ok a => k a
    | Raise e => Raise e
    end.

(** What the awaited [client.post] yields: it raises on a transport failure
    (a refused connection, or no response within the client's timeout);
    otherwise there is a response, whose body parses as JSON or not. *)
Inductive response :=
| ConnectFailed
| Reply (body : option pyval).

(** The dict [send_query] returns. [cost] is [PyNone] for Python's [None]. *)
Record MeasurementRecord := mkRecord {
  duration : float;
  size : nat;
  cost : pyval
}.

(** [resp.json()]. *)
Definition resp_json (body : option pyval) : result pyval :=
  match body with
  | Some v => Ok v
  | None => Raise JSONDecodeError
  end.

(** [data.get]: only a dict has the method. *)
Definition data_get (data : pyval) (key : string) (default : pyval)
  : result pyval :=
  match data with
  | PyDict d => Ok (dict_get d key default)
  | _ => Raise AttributeError
  end.

(** [send_query] from the point where the awaited post resumes it: [start] is
    the clock reading taken before the post, [now] the reading taken after. *)
Definition send_query (start now : float) (r : response)
  : result MeasurementRecord :=
  match r with
  | ConnectFailed => Raise TransportError
  | Reply body =>
    let duration := (now - start)%float in
    data ← resp_json body;
    output ← data_get data "output" (PyStr "");
    let size := String.length (py_str output) in
    cost ← data_get data "cost" PyNone;
    Ok (mkRecord duration size cost)
  end.

(** ** The fan-out: [asyncio.gather] over the dispatches *)

(** The world a run meets. [clock k] is the [k]-th reading of [perf_counter]
    in the run. [arrival] lists the tasks in the order the event loop resumes
    them, one entry per response or timeout. [server j q] is what the post of
    the request with body [q] yields when it is the [j]-th to be resumed. *)
Record Env := mkEnv {
  clock : nat -> float;
  server : nat -> Query -> response;
  arrival : list nat
}.

(** A task of the gather: suspended in its post since the reading [start], or
    returned with its record. *)
Inductive task :=
| Suspended (start : float)
| Returned (r : MeasurementRecord).

(** [gather] wraps the coroutines in tasks in list order; each runs up to its
    first await, so task [i] takes reading [i] of the clock and suspends. *)
Definition launch (env : Env) (queries : list Query) : list task :=
  imap (fun i _ => Suspended (clock env i)) queries.

(** The [j]-th resumption: task [i] gets its response and runs to its end. An
    entry that names no suspended task resumes nothing. *)
Definition resume (env : Env) (queries : list Query) (slots : list task)
    (j i : nat) : result (list task) :=
  match slots !! i, queries !! i with
  | Some (Suspended start), Some q =>
    r ← send_query start (clock env (length queries + j)) (server env j q);
    Ok (<[i := Returned r]> slots)
  | _, _ => Ok slots
  end.

(** The event loop delivers the responses in arrival order; the first task to
    raise ends the gather with its exception. *)
Fixpoint deliver (env : Env) (queries : list Query) (slots : list task)
    (j : nat) (arr : list nat) : result (list task) :=
  match arr with
  | [] => Ok slots
  | i :: rest =>
    slots' ← resume env queries slots j i;
    deliver env queries slots' (S j) rest
  end.

Definition returned (t : task) : option MeasurementRecord :=
  match t with
  | Returned r => Some r
  | Suspended _ => None
  end.

(** The results in task order, once every task has returned. *)
Definition collect (slots : list task) : option (list MeasurementRecord) :=
  mapM returned slots.

(** What [await asyncio.gather(...)] comes to: the list of results, the first
    exception raised, or no return at all while a task stays suspended. *)
Inductive gathered :=
| Gathered (results : list MeasurementRecord)
| Failed (e : exn)
| Blocked.

Definition gather (env : Env) (queries : list Query) : gathered :=
  match deliver env queries (launch env queries) 0 (arrival env) with
  | Raise e => Failed e
  | Ok slots =>
    match collect slots with
    | Some results => Gathered results
    | None => Blocked
    end
  end.

(** ** Frames, the summary row and the report *)

Inductive cell :=
| CNull
| CFloat (x : float)
| CInt (n : Z)
| CObj (v : pyval).

(** A frame: its columns in order, each a name and its cells. *)
Definition DataFrame := list (string * list cell).

Definition cell_of_option (o : option float) : cell :=
  match o with
  | Some x => CFloat x
  | None => CNull
  end.

(** [pl.DataFrame(results)]: one column per key of the dicts, in key order;
    an empty list gives the frame with no column. *)
Definition pl_DataFrame (results : list MeasurementRecord) : DataFrame :=
  match results with
  | [] => []
  | _ =>
    [ ("duration"%string, map (fun r => CFloat (duration r)) results);
      ("size"%string, map (fun r => CInt (Z.of_nat (size r))) results);
      ("cost"%string, map (fun r => CObj (cost r)) results) ]
  end.

(** [df[name]]. *)
Fixpoint get_column (df : DataFrame) (name : string) : result (list cell) :=
  match df with
  | [] => Raise (ColumnNotFoundError name)
  | (c, cells) :: rest =>
    if String.eqb c name then Ok cells else get_column rest name
  end.

Definition floats_of (cells : list cell) : list float :=
  omap (fun c => match c with CFloat x => Some x | _ => None end) cells.

(** The [df.select([...])] of [main]: four aggregates of the duration column,
    aliased [min], [avg], [p95] and [throughput], one row. *)
Definition select_summary (df : DataFrame) : result DataFrame :=
  cells ← get_column df "duration";
  let d := floats_of cells in
  Ok [ ("min"%string, [cell_of_option (col_min d)]);
       ("avg"%string, [cell_of_option (col_mean d)]);
       ("p95"%string, [cell_of_option (col_quantile95 d)]);
       ("throughput"%string, [CFloat (throughput d)]) ].

Definition height (df : DataFrame) : nat :=
  match df with
  | [] => 0
  | (_, cells) :: _ => length cells
  end.

(** A delimited file: the header line and the rows below it. *)
Record Csv := mkCsv {
  header : list string;
  rows : list (list cell)
}.

Definition row_of (df : DataFrame) (i : nat) : list cell :=
  map (fun col => default CNull (col.2 !! i)) df.

(** What [write_csv] puts in the file. *)
Definition to_csv (df : DataFrame) : Csv :=
  mkCsv (map fst df) (map (row_of df) (seq 0 (height df))).

(** The outside of the process: what was printed so far, the files, and the
    paths the operating system does not let the process open for writing. *)
Record World := mkWorld {
  stdout : list DataFrame;
  files : gmap string Csv;
  denied : gset string
}.

Definition print (df : DataFrame) (w : World) : World :=
  mkWorld (stdout w ++ [df]) (files w) (denied w).

(** A list or a dict: a value the library stores in a nested column. *)
Definition nested (c : cell) : bool :=
  match c with
  | CObj (PyList _) | CObj (PyDict _) => true
  | _ => false
  end.

Definition has_nested (df : DataFrame) : bool :=
  existsb (fun col => existsb nested col.2) df.

(** A file created and not written to. *)
Definition empty_file : Csv := mkCsv [] [].

(** [df.write_csv(path)]. Opening the file fails on a denied path and leaves
    everything as it was. Otherwise the file is created or truncated; the
    writer then refuses a frame with a nested column, and the file stays
    empty; any other frame is written. The exception raised, if any, is
    returned beside the world. *)
Definition write_csv (df : DataFrame) (path : string) (w : World)
  : World * option exn :=
  if decide (path ∈ denied w) then (w, Some OSError)
  else if has_nested df
  then (mkWorld (stdout w) (<[path := empty_file]> (files w)) (denied w),
        Some ComputeError)
  else (mkWorld (stdout w) (<[path := to_csv df]> (files w)) (denied w), None).

Definition report_path : string := "load_test_summary.csv".

(** How [asyncio.run(main())] ends. *)
Inductive outcome :=
| Completed
| Uncaught (e : exn)
| Hung.

(** The exit status of the process: 0 when [main] returns, 1 on an uncaught
    exception; a run that never ends has none. *)
Definition exit_status (o : outcome) : option Z :=
  match o with
  | Completed => Some 0%Z
  | Uncaught _ => Some 1%Z
  | Hung => None
  end.

(** The part of [main] after the gather. *)
Definition report (results : list MeasurementRecord) (w : World)
  : World * outcome :=
  let df := pl_DataFrame results in
  match select_summary df with
  | Raise e => (w, Uncaught e)
  | Ok summary =>
    let w1 := print summary w in
    match write_csv df report_path w1 with
    | (w2, None) => (w2, Completed)
    | (w2, Some e) => (w2, Uncaught e)
    end
  end.

Definition main_on (env : Env) (queries : list Query) (w : World)
  : World * outcome :=
  match gather env queries with
  | Failed e => (w, Uncaught e)
  | Blocked => (w, Hung)
  | Gathered results => report results w
  end.

Definition main (env : Env) (w : World) : World * outcome :=
  main_on env QUERIES w.

(** ** What an ordering must satisfy *)

(** On the values a duration can take, the comparison is a total order. *)
Record order_laws {T : Type} (num : Number T) : Prop := mkOrderLaws {
  nleb_total : forall a b : T,
    nvalid a = true -> nvalid b = true -> nleb a b = true \/ nleb b a = true;
  nleb_trans : forall a b c : T,
    nvalid a = true -> nvalid b = true -> nvalid c = true ->
    nleb a b = true -> nleb b c = true -> nleb a c = true;
  nleb_antisym : forall a b : T,
    nvalid a = true -> nvalid b = true ->
    nleb a b = true -> nleb b a = true -> a = b
}.
Arguments nleb_total {T num} _ _ _ _ _.
Arguments nleb_trans {T num} _ _ _ _ _ _ _ _ _.
Arguments nleb_antisym {T num} _ _ _ _ _ _ _.

(** Every value of the column is a duration. *)
Definition durations_ok {T : Type} {num : Number T} (l : list T) : Prop :=
  Forall (fun x => nvalid x = true) l.

(** [m] is a value of [l] below every value of [l]. *)
Definition is_least {T : Type} {num : Number T} (m : T) (l : list T) : Prop :=
  m ∈ l /\ Forall (fun x => nleb m x = true) l.

(** [m] is a value of [l] above every value of [l]. *)
Definition is_greatest {T : Type} {num : Number T} (m : T) (l : list T) : Prop :=
  m ∈ l /\ Forall (fun x => nleb x m = true) l.

Definition ascending {T : Type} {num : Number T} (l : list T) : Prop :=
  StronglySorted (fun a b => nleb a b = true) l.

(** ** Worked inputs *)

(** The durations of the known-values scenario, in seconds. *)
Definition known_durations : list float := [0.1; 0.2; 0.3; 0.4; 0.5]%float.

Definition tenths (k : Z) : Qc := Q2Qc (k # 10).

(** The same durations as exact rationals. *)
Definition known_durations_exact : list Qc :=
  [tenths 1; tenths 2; tenths 3; tenths 4; tenths 5].

Definition three_equal : list float := [0.1; 0.1; 0.1]%float.

Definition rising : list float := [0.1; 0.2; 0.3]%float.

Definition falling : list float := [0.3; 0.2; 0.1]%float.

(** A server that echoes the query as output and numbers its answers. *)
Definition answer (j : nat) (q : Query) : response :=
  Reply (Some (PyDict [("output"%string, PyStr q);
                       ("cost"%string, PyInt (Z.of_nat j))])).

(** A clock that advances one second per reading. *)
Definition ticks (k : nat) : float := float_of_nat k.

Definition three_queries : list Query := ["a"; "bb"; "ccc"]%string.

(** Three dispatches answered in the order 2, 0, 1. *)
Definition out_of_order : Env := mkEnv ticks answer [2; 0; 1].

(** The same, but the second response to arrive is a refused connection. *)
Definition one_refused : Env :=
  mkEnv ticks (fun j q => if Nat.eqb j 1 then ConnectFailed else answer j q)
        [2; 0; 1].

(** The same, but the second response to arrive has a body that is not JSON. *)
Definition one_garbled : Env :=
  mkEnv ticks (fun j q => if Nat.eqb j 1 then Reply None else answer j q)
        [2; 0; 1].

(** One dispatch whose two clock readings are equal. *)
Definition frozen_clock : Env := mkEnv (fun _ => 1%float) answer [0].

Definition fresh_world : World := mkWorld [] ∅ ∅.

(** A world where the report file already exists. *)
Definition stale_world : World :=
  mkWorld [] {[ report_path := mkCsv ["old"%string] [[CInt 7]] ]} ∅.

(** A world where the report file cannot be opened for writing. *)
Definition locked_world : World := mkWorld [] ∅ {[ report_path ]}.

(** One record of duration zero. *)
Definition zero_record : MeasurementRecord := mkRecord 0%float 1 (PyInt 0).

(** ** The data generator *)

(** [data_gen/generate_parquet_data.py]: the loop that writes the sample
    files. The frame of an iteration is drawn at random by the script; here
    it is whatever [draw idx] is. *)
Definition N_FILES : nat := 5.

(** [f"sample_{idx}.parquet"]. *)
Definition sample_name (idx : nat) : string :=
  ("sample_" ++ pretty idx ++ ".parquet")%string.

(** [OUTPUT_DIR / name]. *)
Definition file_path (output_dir : string) (idx : nat) : string :=
  (output_dir ++ "/" ++ sample_name idx)%string.

(** The first [n] iterations of the loop: iteration [idx] writes its frame
    at its path. *)
Definition write_samples {Frame : Type} (output_dir : string)
    (draw : nat -> Frame) (n : nat) (fs : gmap string Frame)
  : gmap string Frame :=
  fold_left (fun fs idx => <[file_path output_dir idx := draw idx]> fs)
            (seq 0 n) fs.

Definition generate {Frame : Type} (output_dir : string) (draw : nat -> Frame)
    (fs : gmap string Frame) : gmap string Frame :=
  write_samples output_dir draw N_FILES fs.

(** * Facts *)

(** ** Minimum, maximum and sorting under a total order *)

Section OrderFacts.
Context {T : Type} {num : Number T} (laws : order_laws num).

Lemma leb_refl (a : T) : nvalid a = true -> nleb a a = true.
Proof. intros Ha. destruct (nleb_total laws a a Ha Ha); assumption. Qed.

Lemma nmin_cases (a b : T) : nmin a b = a \/ nmin a b = b.
Proof. unfold nmin. destruct (nleb a b); auto. Qed.

Lemma nmax_cases (a b : T) : nmax a b = a \/ nmax a b = b.
Proof. unfold nmax. destruct (nleb a b); auto. Qed.

Lemma nmin_le_l (a b : T) :
  nvalid a = true -> nvalid b = true -> nleb (nmin a b) a = true.
Proof.
  intros Ha Hb. unfold nmin. destruct (nleb a b) eqn:E.
  - by apply leb_refl.
  - destruct (nleb_total laws a b Ha Hb); congruence.
Qed.

Lemma nmin_le_r (a b : T) :
  nvalid a = true -> nvalid b = true -> nleb (nmin a b) b = true.
Proof.
  intros Ha Hb. unfold nmin. destruct (nleb a b) eqn:E; [done|].
  by apply leb_refl.
Qed.

Lemma nmax_ge_l (a b : T) :
  nvalid a = true -> nvalid b = true -> nleb a (nmax a b) = true.
Proof.
  intros Ha Hb. unfold nmax. destruct (nleb a b) eqn:E; [done|].
  by apply leb_refl.
Qed.

Lemma nmax_ge_r (a b : T) :
  nvalid a = true -> nvalid b = true -> nleb b (nmax a b) = true.
Proof.
  intros Ha Hb. unfold nmax. destruct (nleb a b) eqn:E.
  - by apply leb_refl.
  - destruct (nleb_total laws a b Ha Hb); congruence.
Qed.

Lemma nmin_valid (a b : T) :
  nvalid a = true -> nvalid b = true -> nvalid (nmin a b) = true.
Proof. intros. destruct (nmin_cases a b) as [-> | ->]; done. Qed.

Lemma nmax_valid (a b : T) :
  nvalid a = true -> nvalid b = true -> nvalid (nmax a b) = true.
Proof. intros. destruct (nmax_cases a b) as [-> | ->]; done. Qed.

(** The running minimum is a value seen so far, below all of them. *)
Lemma fold_nmin_least (xs : list T) (x : T) :
  nvalid x = true -> durations_ok xs ->
  is_least (fold_left nmin xs x) (x :: xs).
Proof.
  revert x. induction xs as [|y ys IH]; intros x Hx Hxs; simpl.
  - split; [apply list_elem_of_here|]. constructor; [by apply leb_refl|constructor].
  - inversion Hxs as [|? ? Hy Hys]; subst.
    destruct (IH (nmin x y) (nmin_valid x y Hx Hy) Hys) as [Hin Hall].
    assert (Hm : nvalid (fold_left nmin ys (nmin x y)) = true).
    { apply list_elem_of_In in Hin.
      assert (Hv : durations_ok (nmin x y :: ys))
        by (constructor; [by apply nmin_valid|done]).
      unfold durations_ok in Hv. rewrite Forall_forall in Hv.
      apply Hv. by apply list_elem_of_In. }
    inversion Hall as [|? ? Hhd Htl]; subst.
    split.
    + apply elem_of_cons in Hin as [Hin | Hin].
      * rewrite Hin. destruct (nmin_cases x y) as [-> | ->].
        -- apply list_elem_of_here.
        -- apply list_elem_of_further, list_elem_of_here.
      * by do 2 apply list_elem_of_further.
    + constructor; [|constructor; [|done]].
      * apply (nleb_trans laws _ (nmin x y)); auto using nmin_valid, nmin_le_l.
      * apply (nleb_trans laws _ (nmin x y)); auto using nmin_valid, nmin_le_r.
Qed.

Lemma fold_nmax_greatest (xs : list T) (x : T) :
  nvalid x = true -> durations_ok xs ->
  is_greatest (fold_left nmax xs x) (x :: xs).
Proof.
  revert x. induction xs as [|y ys IH]; intros x Hx Hxs; simpl.
  - split; [apply list_elem_of_here|]. constructor; [by apply leb_refl|constructor].
  - inversion Hxs as [|? ? Hy Hys]; subst.
    destruct (IH (nmax x y) (nmax_valid x y Hx Hy) Hys) as [Hin Hall].
    assert (Hm : nvalid (fold_left nmax ys (nmax x y)) = true).
    { assert (Hv : durations_ok (nmax x y :: ys))
        by (constructor; [by apply nmax_valid|done]).
      unfold durations_ok in Hv. rewrite Forall_forall in Hv.
      by apply Hv. }
    inversion Hall as [|? ? Hhd Htl]; subst.
    split.
    + apply elem_of_cons in Hin as [Hin | Hin].
      * rewrite Hin. destruct (nmax_cases x y) as [-> | ->].
        -- apply list_elem_of_here.
        -- apply list_elem_of_further, list_elem_of_here.
      * by do 2 apply list_elem_of_further.
    + constructor; [|constructor; [|done]].
      * apply (nleb_trans laws _ (nmax x y)); auto using nmax_valid, nmax_ge_l.
      * apply (nleb_trans laws _ (nmax x y)); auto using nmax_valid, nmax_ge_r.
Qed.

Lemma is_least_unique (l : list T) (a b : T) :
  durations_ok l -> is_least a l -> is_least b l -> a = b.
Proof.
  intros Hl [Ha Hla] [Hb Hlb].
  unfold durations_ok in Hl. rewrite Forall_forall in Hl, Hla, Hlb.
  apply (nleb_antisym laws); auto.
Qed.

Lemma is_least_perm (l l' : list T) (a : T) :
  l ≡ₚ l' -> is_least a l -> is_least a l'.
Proof. intros HP [Ha Hl]. split; by rewrite <- HP. Qed.

Lemma insert_sorted_perm (x : T) (l : list T) : insert_sorted x l ≡ₚ x :: l.
Proof.
  induction l as [|y ys IH]; simpl; [done|].
  destruct (nleb x y); [done|]. rewrite IH. apply Permutation_swap.
Qed.

Lemma sort_values_perm (l : list T) : sort_values l ≡ₚ l.
Proof.
  induction l as [|x xs IH]; simpl; [done|].
  rewrite insert_sorted_perm. by rewrite IH.
Qed.

Lemma sort_values_length (l : list T) : length (sort_values l) = length l.
Proof. apply Permutation_length, sort_values_perm. Qed.

Lemma insert_sorted_ascending (x : T) (l : list T) :
  nvalid x = true -> durations_ok l -> ascending l ->
  ascending (insert_sorted x l).
Proof.
  intros Hx Hl Hs. induction l as [|y ys IH]; simpl.
  - repeat constructor.
  - inversion Hl as [|? ? Hy Hys]; subst.
    inversion Hs as [|? ? Hsys Hall]; subst.
    destruct (nleb x y) eqn:E.
    + constructor; [done|]. constructor; [done|].
      rewrite Forall_forall in Hall, Hys |- *. intros z Hz.
      apply (nleb_trans laws _ y); auto.
    + constructor; [by apply IH|].
      rewrite (insert_sorted_perm x ys). constructor; [|done].
      destruct (nleb_total laws x y Hx Hy); congruence.
Qed.

Lemma sort_values_ascending (l : list T) :
  durations_ok l -> ascending (sort_values l).
Proof.
  induction l as [|x xs IH]; intros Hl; simpl; [constructor|].
  inversion Hl; subst. apply insert_sorted_ascending; auto.
  unfold durations_ok. by rewrite sort_values_perm.
Qed.

(** Two ascending arrangements of the same values are the same list. *)
Lemma ascending_unique (l1 l2 : list T) :
  durations_ok l1 -> ascending l1 -> ascending l2 -> l1 ≡ₚ l2 -> l1 = l2.
Proof.
  revert l2. induction l1 as [|a l1 IH]; intros l2 Hok H1 H2 HP.
  - by apply Permutation_nil in HP.
  - destruct l2 as [|b l2]; [by apply Permutation_sym, Permutation_nil in HP|].
    inversion Hok as [|? ? Ha Hok1]; subst.
    inversion H1 as [|? ? H1' Hall1]; subst.
    inversion H2 as [|? ? H2' Hall2]; subst.
    assert (Hok2 : durations_ok (b :: l2)) by (unfold durations_ok; by rewrite <- HP).
    inversion Hok2 as [|? ? Hb Hok2']; subst.
    assert (a = b) as ->.
    { apply (nleb_antisym laws); auto.
      - assert (Hin : b ∈ a :: l1) by (rewrite HP; apply list_elem_of_here).
        apply elem_of_cons in Hin as [-> | Hin]; [by apply leb_refl|].
        rewrite Forall_forall in Hall1. auto.
      - assert (Hin : a ∈ b :: l2) by (rewrite <- HP; apply list_elem_of_here).
        apply elem_of_cons in Hin as [-> | Hin]; [by apply leb_refl|].
        rewrite Forall_forall in Hall2. auto. }
    f_equal. apply IH; auto. by apply Permutation_cons_inv in HP.
Qed.

Lemma sort_values_permutation_invariant (l l' : list T) :
  durations_ok l -> l ≡ₚ l' -> sort_values l = sort_values l'.
Proof.
  intros Hok HP.
  assert (Hok' : durations_ok l') by (unfold durations_ok; by rewrite <- HP).
  apply ascending_unique.
  - unfold durations_ok. by rewrite sort_values_perm.
  - by apply sort_values_ascending.
  - by apply sort_values_ascending.
  - by rewrite !sort_values_perm.
Qed.

Lemma nearest_rank_lt (n : nat) : 0 < n -> nearest_rank n < n.
Proof.
  intros Hn. unfold nearest_rank.
  apply Nat.Div0.div_lt_upper_bound. lia.
Qed.

Lemma col_quantile95_is_Some (l : list T) :
  l <> [] -> exists p, col_quantile95 l = Some p /\ p ∈ l.
Proof.
  intros Hl. unfold col_quantile95.
  destruct (lookup_lt_is_Some_2 (sort_values l) (nearest_rank (length l))) as [p Hp].
  { rewrite sort_values_length. apply nearest_rank_lt.
    destruct l; [done|simpl; lia]. }
  exists p. split; [done|].
  rewrite <- (sort_values_perm l). by eapply list_elem_of_lookup_2.
Qed.
End OrderFacts.

(** ** Binary64 durations are totally ordered *)

Lemma float_duration_shape (x : float) :
  float_is_duration x = true ->
  Prim2SF x = S754_zero false \/ exists m e, Prim2SF x = S754_finite false m e.
Proof.
  unfold float_is_duration. rewrite classify_spec.
  unfold SF64classify, SFclassify.
  destruct (Prim2SF x) as [[|]|[|]| |[|] m e]; try discriminate; eauto.
  destruct (Z.eqb _ _); discriminate.
Qed.

Lemma SFleb_finite (m1 m2 : positive) (e1 e2 : Z) :
  SFleb (S754_finite false m1 e1) (S754_finite false m2 e2) = true <->
  (e1 < e2)%Z \/ (e1 = e2 /\ (m1 <= m2)%positive).
Proof.
  unfold SFleb, SFcompare.
  change (Pos.compare_cont Eq m1 m2) with (Pos.compare m1 m2).
  destruct (Z.compare_spec e1 e2); [destruct (Pos.compare_spec m1 m2)|..];
    split; intros; try reflexivity; try discriminate; try lia.
Qed.

Lemma float_order_laws : order_laws float_number.
Proof.
  constructor; simpl.
  - intros a b Ha Hb. rewrite !leb_spec.
    destruct (float_duration_shape a Ha) as [-> | (m1 & e1 & ->)],
             (float_duration_shape b Hb) as [-> | (m2 & e2 & ->)];
      auto.
    rewrite !SFleb_finite. lia.
  - intros a b c Ha Hb Hc. rewrite !leb_spec.
    destruct (float_duration_shape a Ha) as [-> | (m1 & e1 & ->)],
             (float_duration_shape b Hb) as [-> | (m2 & e2 & ->)],
             (float_duration_shape c Hc) as [-> | (m3 & e3 & ->)];
      try done.
    rewrite !SFleb_finite. lia.
  - intros a b Ha Hb. rewrite !leb_spec. intros Hab Hba.
    apply Prim2SF_inj. revert Hab Hba.
    destruct (float_duration_shape a Ha) as [-> | (m1 & e1 & ->)],
             (float_duration_shape b Hb) as [-> | (m2 & e2 & ->)];
      try done.
    rewrite !SFleb_finite. intros. f_equal; lia.
Qed.

(** ** Exact rationals *)

Lemma Qc_leb_le (a b : Qc) : Qc_leb a b = true <-> (a <= b)%Qc.
Proof. unfold Qc_leb, Qcle. apply Qle_bool_iff. Qed.

Lemma Qc_order_laws : order_laws Qc_number.
Proof.
  constructor; simpl.
  - intros a b _ _. rewrite !Qc_leb_le.
    destruct (Qclt_le_dec a b); [left; by apply Qclt_le_weak | by right].
  - intros a b c _ _ _. rewrite !Qc_leb_le. apply Qcle_trans.
  - intros a b _ _. rewrite !Qc_leb_le. apply Qcle_antisym.
Qed.

Lemma Qc_of_nat_S (n : nat) : Qc_of_nat (S n) = (Qc_of_nat n + 1)%Qc.
Proof.
  unfold Qc_of_nat. apply Qc_is_canon. simpl.
  rewrite !Qred_correct. rewrite Nat2Z.inj_succ. unfold Z.succ.
  rewrite inject_Z_plus. reflexivity.
Qed.

Lemma Qc_of_nat_pos (n : nat) : 0 < n -> (0 < Qc_of_nat n)%Qc.
Proof.
  intros Hn. unfold Qc_of_nat, Qclt.
  change (0 < Qred (inject_Z (Z.of_nat n)))%Q. rewrite Qred_correct.
  unfold Qlt, inject_Z. cbn [Qnum Qden]. lia.
Qed.

Lemma Qc_fold_sum_bounds (lo hi : Qc) (l : list Qc) (acc : Qc) :
  Forall (fun x => (lo <= x)%Qc /\ (x <= hi)%Qc) l ->
  (acc + lo * Qc_of_nat (length l) <= fold_left Qcplus l acc)%Qc /\
  (fold_left Qcplus l acc <= acc + hi * Qc_of_nat (length l))%Qc.
Proof.
  intros Hl. revert acc. induction Hl as [|x l [Hlo Hhi] _ IH]; intros acc; simpl.
  - replace (Qc_of_nat 0) with 0%Qc by (apply Qc_is_canon; reflexivity).
    rewrite !Qcmult_0_r, Qcplus_0_r. split; apply Qcle_refl.
  - rewrite Qc_of_nat_S. destruct (IH (acc + x)%Qc) as [IH1 IH2]. split.
    + eapply Qcle_trans; [|exact IH1].
      replace (acc + lo * (Qc_of_nat (length l) + 1))%Qc
        with ((acc + lo) + lo * Qc_of_nat (length l))%Qc by ring.
      apply Qcplus_le_compat; [|apply Qcle_refl].
      apply Qcplus_le_compat; [apply Qcle_refl|done].
    + eapply Qcle_trans; [exact IH2|].
      replace (acc + hi * (Qc_of_nat (length l) + 1))%Qc
        with ((acc + hi) + hi * Qc_of_nat (length l))%Qc by ring.
      apply Qcplus_le_compat; [|apply Qcle_refl].
      apply Qcplus_le_compat; [apply Qcle_refl|done].
Qed.

(** In exact arithmetic the mean lies between any two bounds of the values. *)
Lemma Qc_mean_bounds (lo hi : Qc) (l : list Qc) (av : Qc) :
  Forall (fun x => (lo <= x)%Qc /\ (x <= hi)%Qc) l ->
  col_mean l = Some av -> (lo <= av)%Qc /\ (av <= hi)%Qc.
Proof.
  intros Hl Hav. destruct l as [|x xs]; [discriminate|].
  injection Hav as <-.
  set (l := x :: xs) in *.
  change ((lo <= col_sum l / Qc_of_nat (length l))%Qc /\
          (col_sum l / Qc_of_nat (length l) <= hi)%Qc).
  assert (Hn : (0 < Qc_of_nat (length l))%Qc) by (apply Qc_of_nat_pos; simpl; lia).
  assert (Hne : Qc_of_nat (length l) <> 0%Qc).
  { intros E. rewrite E in Hn. by apply Qclt_not_eq in Hn. }
  destruct (Qc_fold_sum_bounds lo hi l 0%Qc Hl) as [H1 H2].
  rewrite Qcplus_0_l in H1, H2.
  change (fold_left Qcplus l 0%Qc) with (col_sum l) in H1, H2.
  assert (E : (col_sum l / Qc_of_nat (length l) * Qc_of_nat (length l))%Qc = col_sum l)
    by (field; exact Hne).
  split; apply Qcmult_lt_0_le_reg_r with (z := Qc_of_nat (length l));
    try exact Hn; by rewrite E.
Qed.

(** ** The fan-out *)

Lemma bind_Ok {A B : Type} (m : result A) (k : A -> result B) (b : B) :
  m ≫= k = Ok b -> exists a, m = Ok a /\ k a = Ok b.
Proof. destruct m as [a|e]; [eauto|discriminate]. Qed.

Lemma launch_length (env : Env) (qs : list Query) :
  length (launch env qs) = length qs.
Proof. unfold launch. apply length_imap. Qed.

Lemma launch_lookup (env : Env) (qs : list Query) (i : nat) :
  i < length qs -> launch env qs !! i = Some (Suspended (clock env i)).
Proof.
  intros Hi. unfold launch. rewrite list_lookup_imap.
  destruct (lookup_lt_is_Some_2 qs i Hi) as [q ->]. reflexivity.
Qed.

(** A resumption either leaves the slots alone or stores one record. *)
Lemma resume_Ok (env : Env) (qs : list Query) (slots slots' : list task)
    (j i : nat) :
  resume env qs slots j i = Ok slots' ->
  slots' = slots \/
  exists start q r,
    slots !! i = Some (Suspended start) /\ qs !! i = Some q /\
    send_query start (clock env (length qs + j)) (server env j q) = Ok r /\
    slots' = <[i := Returned r]> slots.
Proof.
  unfold resume. intros H.
  destruct (slots !! i) as [[start|r0]|] eqn:Hs; try (left; congruence).
  destruct (qs !! i) as [q|] eqn:Hq; try (left; congruence).
  apply bind_Ok in H as (r & Hr & [= <-]). right. eauto 10.
Qed.

Lemma resume_other (env : Env) (qs : list Query) (slots slots' : list task)
    (j i i' : nat) :
  resume env qs slots j i = Ok slots' -> i <> i' -> slots' !! i' = slots !! i'.
Proof.
  intros H Hne. apply resume_Ok in H as [-> | (start & q & r & _ & _ & _ & ->)].
  - done.
  - by apply list_lookup_insert_ne.
Qed.

Lemma resume_keeps_returned (env : Env) (qs : list Query)
    (slots slots' : list task) (j i i' : nat) (r : MeasurementRecord) :
  resume env qs slots j i = Ok slots' ->
  slots !! i' = Some (Returned r) -> slots' !! i' = Some (Returned r).
Proof.
  intros H Hr. destruct (decide (i = i')) as [<- | Hne].
  - apply resume_Ok in H as [-> | (start & q & r' & Hs & _)]; [done|congruence].
  - by rewrite (resume_other _ _ _ _ _ _ _ H Hne).
Qed.

Lemma deliver_keeps_returned (env : Env) (qs : list Query) (arr : list nat) :
  forall (slots slots' : list task) (j i : nat) (r : MeasurementRecord),
    deliver env qs slots j arr = Ok slots' ->
    slots !! i = Some (Returned r) -> slots' !! i = Some (Returned r).
Proof.
  induction arr as [|i0 rest IH]; intros slots slots' j i r H Hr; simpl in H.
  - by injection H as <-.
  - apply bind_Ok in H as (slots1 & H1 & H2).
    eapply IH; [exact H2|]. by eapply resume_keeps_returned.
Qed.

Lemma deliver_length (env : Env) (qs : list Query) (arr : list nat) :
  forall (slots slots' : list task) (j : nat),
    deliver env qs slots j arr = Ok slots' -> length slots' = length slots.
Proof.
  induction arr as [|i0 rest IH]; intros slots slots' j H; simpl in H.
  - by injection H as <-.
  - apply bind_Ok in H as (slots1 & H1 & H2).
    rewrite (IH _ _ _ H2).
    apply resume_Ok in H1 as [-> | (start & q & r & _ & _ & _ & ->)]; [done|].
    apply length_insert.
Qed.

(** A suspended task stays suspended, or one entry of the arrival order
    resumed it: its record is made from its own start reading, the reading at
    that resumption, and the response to its own query. *)
Lemma deliver_suspended (env : Env) (qs : list Query) (arr : list nat) :
  forall (slots slots' : list task) (j i : nat) (start : float),
    deliver env qs slots j arr = Ok slots' ->
    slots !! i = Some (Suspended start) ->
    slots' !! i = Some (Suspended start) \/
    exists k q r,
      arr !! k = Some i /\ qs !! i = Some q /\
      send_query start (clock env (length qs + (j + k))) (server env (j + k) q)
        = Ok r /\
      slots' !! i = Some (Returned r).
Proof.
  induction arr as [|i0 rest IH]; intros slots slots' j i start H Hs; simpl in H.
  - injection H as <-. by left.
  - apply bind_Ok in H as (slots1 & H1 & H2).
    destruct (decide (i0 = i)) as [-> | Hne].
    + pose proof H1 as H1'.
      apply resume_Ok in H1' as [-> | (start' & q & r & Hs' & Hq & Hr & ->)].
      * destruct (IH _ _ _ _ _ H2 Hs) as [Hl | (k & q & r & Hk & Hq & Hr & Hl)];
          [by left|].
        right. exists (S k), q, r. rewrite Nat.add_succ_r. done.
      * assert (start' = start) as -> by congruence.
        right. exists 0, q, r. rewrite Nat.add_0_r.
        repeat split; try done.
        eapply deliver_keeps_returned; [exact H2|].
        apply list_lookup_insert_eq. by eapply lookup_lt_Some.
    + assert (Hs1 : slots1 !! i = Some (Suspended start))
        by (by rewrite (resume_other _ _ _ _ _ _ _ H1 Hne)).
      destruct (IH _ _ _ _ _ H2 Hs1) as [Hl | (k & q & r & Hk & Hq & Hr & Hl)];
        [by left|].
      right. exists (S k), q, r. rewrite Nat.add_succ_r. done.
Qed.

Lemma collect_lookup (slots : list task) (rs : list MeasurementRecord) (i : nat)
    (t : task) :
  collect slots = Some rs -> slots !! i = Some t ->
  exists r, t = Returned r /\ rs !! i = Some r.
Proof.
  unfold collect. intros H Ht. apply mapM_Some_1 in H.
  destruct (Forall2_lookup_l _ _ _ _ _ H Ht) as (r & Hr & Hret).
  exists r. split; [|done]. destruct t; simpl in Hret; congruence.
Qed.

(** What a completed gather holds. *)
Lemma gathered_records (env : Env) (qs : list Query)
    (rs : list MeasurementRecord) :
  gather env qs = Gathered rs ->
  length rs = length qs /\
  forall i, i < length qs ->
    exists j q r,
      arrival env !! j = Some i /\ qs !! i = Some q /\
      send_query (clock env i) (clock env (length qs + j)) (server env j q)
        = Ok r /\
      rs !! i = Some r.
Proof.
  unfold gather. intros H.
  destruct (deliver env qs (launch env qs) 0 (arrival env)) as [slots|e] eqn:Hd;
    [|discriminate].
  destruct (collect slots) as [rs'|] eqn:Hc; [|discriminate].
  injection H as ->. split.
  - unfold collect in Hc. apply length_mapM in Hc. rewrite <- Hc.
    rewrite (deliver_length _ _ _ _ _ _ Hd). apply launch_length.
  - intros i Hi.
    destruct (deliver_suspended _ _ _ _ _ _ _ _ Hd (launch_lookup env qs i Hi))
      as [Hs | (k & q & r & Hk & Hq & Hr & Hs)].
    + destruct (collect_lookup _ _ _ _ Hc Hs) as (r & [=] & _).
    + destruct (collect_lookup _ _ _ _ Hc Hs) as (r' & [= <-] & Hrs).
      exists k, q, r. done.
Qed.

(** A failing dispatch ends the gather with an exception. *)
Lemma deliver_raises (env : Env) (qs : list Query) (arr : list nat) :
  forall (slots : list task) (j k i : nat) (q : Query) (start : float) (e0 : exn),
    slots !! i = Some (Suspended start) -> qs !! i = Some q ->
    arr !! k = Some i -> (forall k', k' < k -> arr !! k' <> Some i) ->
    (forall now, send_query start now (server env (j + k) q) = Raise e0) ->
    exists e, deliver env qs slots j arr = Raise e.
Proof.
  induction arr as [|i0 rest IH]; intros slots j k i q start e0 Hs Hq Hk Hfirst Hr.
  - done.
  - simpl. destruct k as [|k].
    + injection Hk as ->. rewrite Nat.add_0_r in Hr.
      unfold resume. rewrite Hs, Hq, Hr. simpl. eauto.
    + simpl in Hk.
      assert (Hne : i0 <> i).
      { intros ->. by apply (Hfirst 0); [lia|]. }
      destruct (resume env qs slots j i0) as [slots1|e] eqn:H1; [|simpl; eauto].
      simpl. apply (IH slots1 (S j) k i q start e0); try done.
      * by rewrite (resume_other _ _ _ _ _ _ _ H1 Hne).
      * intros k' Hk'. apply (Hfirst (S k')). lia.
      * intros now. replace (S j + k) with (j + S k) by lia. apply Hr.
Qed.

(** * The claims *)

(** ** The 0.95-quantile *)

Lemma nearest_rank_nearest (n : nat) :
  20 * nearest_rank n <= 19 * (n - 1) + 10 < 20 * nearest_rank n + 20.
Proof.
  unfold nearest_rank.
  pose proof (Nat.div_mod_eq (19 * (n - 1) + 10) 20) as E.
  pose proof (Nat.mod_upper_bound (19 * (n - 1) + 10) 20) as B.
  lia.
Qed.

Lemma nearest_rank_integer (n r : nat) :
  19 * (n - 1) = 20 * r -> nearest_rank n = r.
Proof.
  intros E. pose proof (nearest_rank_nearest n). lia.
Qed.


(** C1 (counterexample): on the durations 0.1 to 0.5 the script's p95 is 0.5,
    the fifth sorted value, not the interpolated 0.48; in exact arithmetic it
    is 1/2 where linear interpolation gives 12/25. *)
Lemma p95_known_values_is_not_interpolated :
  col_quantile95 known_durations = Some 0.5%float /\
  col_quantile95 known_durations <> Some 0.48%float /\
  col_quantile95 known_durations_exact = Some (Q2Qc (1 # 2)) /\
  p95_linear known_durations_exact = Some (Q2Qc (12 # 25)) /\
  col_quantile95 known_durations_exact <> p95_linear known_durations_exact.
Proof.
  assert (E1 : col_quantile95 known_durations = Some 0.5%float) by reflexivity.
  assert (E2 : col_quantile95 known_durations_exact = Some (Q2Qc (1 # 2))).
  { vm_compute. f_equal. by apply Qc_is_canon. }
  assert (E3 : p95_linear known_durations_exact = Some (Q2Qc (12 # 25))).
  { vm_compute. f_equal. by apply Qc_is_canon. }
  repeat split; done.
Qed.

(** C1 (amended): for every non-empty duration column, p95 is the value of
    the sorted column at the integer [r] nearest to the rank [0.95 * (n - 1)]
    (a half rounds up); no interpolation takes place. When the rank is itself
    an integer index, that is the value linear interpolation returns too. On
    the known durations the p95 is 0.5. *)
Theorem p95_is_nearest_rank {T : Type} {num : Number T} (l : list T) :
  l <> [] ->
  (exists r p,
     20 * r <= 19 * (length l - 1) + 10 < 20 * r + 20 /\
     sort_values l !! r = Some p /\
     col_quantile95 l = Some p /\
     (19 * (length l - 1) = 20 * r -> p95_linear l = Some p)) /\
  col_quantile95 known_durations = Some 0.5%float.
Proof.
  intros Hl. split; [|reflexivity].
  assert (Hlen : nearest_rank (length l) < length (sort_values l)).
  { rewrite sort_values_length. apply nearest_rank_lt.
    destruct l; [done|simpl; lia]. }
  destruct (lookup_lt_is_Some_2 _ _ Hlen) as [p Hp].
  exists (nearest_rank (length l)), p.
  split; [apply nearest_rank_nearest|]. split; [done|]. split; [done|].
  intros E. unfold p95_linear. rewrite E.
  replace (20 * nearest_rank (length l) / 20) with (nearest_rank (length l))
    by (symmetry; rewrite Nat.mul_comm; apply Nat.div_mul; lia).
  replace (20 * nearest_rank (length l) mod 20) with 0
    by (symmetry; rewrite Nat.mul_comm; apply Nat.Div0.mod_mul).
  by rewrite Hp.
Qed.

Lemma p95_is_nearest_rank_witness :
  known_durations <> [] /\
  (exists r p,
     20 * r <= 19 * (length known_durations - 1) + 10 < 20 * r + 20 /\
     sort_values known_durations !! r = Some p /\
     col_quantile95 known_durations = Some p /\
     (19 * (length known_durations - 1) = 20 * r ->
      p95_linear known_durations = Some p)) /\
  col_quantile95 known_durations = Some 0.5%float.
Proof.
  assert (H : known_durations <> []) by discriminate.
  exact (conj H (p95_is_nearest_rank known_durations H)).
Defined.

(** ** Bounds and order-independence of the summary *)

Section Aggregates.
Context {T : Type} {num : Number T} (laws : order_laws num).

Lemma col_min_least (l : list T) (m : T) :
  durations_ok l -> col_min l = Some m -> is_least m l.
Proof.
  intros Hok Hm. destruct l as [|x xs]; [discriminate|].
  injection Hm as <-. inversion Hok; subst. by apply fold_nmin_least.
Qed.

Lemma col_max_greatest (l : list T) (m : T) :
  durations_ok l -> col_max l = Some m -> is_greatest m l.
Proof.
  intros Hok Hm. destruct l as [|x xs]; [discriminate|].
  injection Hm as <-. inversion Hok; subst. by apply fold_nmax_greatest.
Qed.

Lemma col_min_permutation (l l' : list T) :
  durations_ok l -> l ≡ₚ l' -> col_min l = col_min l'.
Proof.
  intros Hok HP.
  assert (Hok' : durations_ok l') by (unfold durations_ok; by rewrite <- HP).
  destruct l as [|x xs], l' as [|y ys]; try done.
  - by apply Permutation_nil_cons in HP.
  - by apply Permutation_sym, Permutation_nil_cons in HP.
  - destruct (col_min (x :: xs)) as [m|] eqn:Hm; [|discriminate].
    destruct (col_min (y :: ys)) as [m'|] eqn:Hm'; [|discriminate].
    f_equal. apply (is_least_unique laws (y :: ys)); [done| |].
    + eapply is_least_perm; [exact HP|]. by apply col_min_least.
    + by apply col_min_least.
Qed.

Lemma col_quantile95_permutation (l l' : list T) :
  durations_ok l -> l ≡ₚ l' -> col_quantile95 l = col_quantile95 l'.
Proof.
  intros Hok HP. unfold col_quantile95.
  rewrite (sort_values_permutation_invariant laws l l' Hok HP).
  by rewrite (Permutation_length HP).
Qed.

(** On a non-empty column of durations the three order statistics exist, and
    the quantile lies between the least and the greatest value. *)
Lemma quantile_between (l : list T) :
  l <> [] -> durations_ok l ->
  exists mn mx p,
    col_min l = Some mn /\ col_max l = Some mx /\ col_quantile95 l = Some p /\
    nleb mn p = true /\ nleb p mx = true.
Proof.
  intros Hl Hok.
  destruct (col_quantile95_is_Some l Hl) as (p & Hp & Hin).
  destruct l as [|x xs]; [done|].
  destruct (col_min_least (x :: xs) _ Hok eq_refl) as [_ Hmin].
  destruct (col_max_greatest (x :: xs) _ Hok eq_refl) as [_ Hmax].
  rewrite Forall_forall in Hmin, Hmax.
  eexists _, _, p. repeat split; try done; auto.
Qed.
End Aggregates.

Lemma Qc_durations_ok (l : list Qc) : durations_ok l.
Proof. unfold durations_ok. by apply Forall_forall. Qed.

Lemma Qc_col_sum_permutation (l l' : list Qc) :
  l ≡ₚ l' -> col_sum l = col_sum l'.
Proof.
  unfold col_sum. simpl. generalize 0%Qc.
  intros a HP. revert a.
  induction HP as [|x l l' _ IH|x y l|l l' l'' _ IH1 _ IH2]; intros a; simpl.
  - done.
  - apply IH.
  - f_equal. ring.
  - by rewrite IH1.
Qed.

Lemma Qc_summarize_permutation (l l' : list Qc) :
  l ≡ₚ l' -> summarize l = summarize l'.
Proof.
  intros HP. unfold summarize.
  rewrite (col_min_permutation Qc_order_laws l l' (Qc_durations_ok l) HP).
  rewrite (col_quantile95_permutation Qc_order_laws l l' (Qc_durations_ok l) HP).
  assert (Hmean : col_mean l = col_mean l').
  { unfold col_mean. rewrite (Qc_col_sum_permutation l l' HP).
    rewrite (Permutation_length HP).
    destruct l as [|x xs], l' as [|y ys]; try done.
    - by apply Permutation_nil_cons in HP.
    - by apply Permutation_sym, Permutation_nil_cons in HP. }
  rewrite Hmean. unfold throughput.
  by rewrite (Qc_col_sum_permutation l l' HP), (Permutation_length HP).
Qed.

(** C5 (counterexample): three durations of 0.1 second. Their binary64 sum is
    0.30000000000000004 and the mean 0.10000000000000002, above the largest
    duration. *)
Lemma mean_exceeds_max_in_binary64 :
  durations_ok three_equal /\
  col_mean three_equal = Some 0.10000000000000002%float /\
  col_max three_equal = Some 0.1%float /\
  nleb 0.10000000000000002%float 0.1%float = false.
Proof. repeat split; try reflexivity. by repeat constructor. Qed.

(** C5 (amended): for every non-empty set of durations, min <= p95 <= max
    holds in the binary64 arithmetic of the script; min <= mean <= max holds
    when the sum and the division are exact (rational arithmetic). *)
Theorem summary_within_bounds (lf : list float) (lq : list Qc) :
  lf <> [] -> durations_ok lf -> lq <> [] ->
  (exists mn mx p,
     col_min lf = Some mn /\ col_max lf = Some mx /\
     col_quantile95 lf = Some p /\
     nleb mn p = true /\ nleb p mx = true) /\
  (exists mn mx av p,
     col_min lq = Some mn /\ col_max lq = Some mx /\
     col_mean lq = Some av /\ col_quantile95 lq = Some p /\
     nleb mn av = true /\ nleb av mx = true /\
     nleb mn p = true /\ nleb p mx = true).
Proof.
  intros Hf Hok Hq. split; [by apply (quantile_between float_order_laws)|].
  destruct (quantile_between Qc_order_laws lq Hq (Qc_durations_ok lq))
    as (mn & mx & p & Hmn & Hmx & Hp & H1 & H2).
  destruct (col_mean lq) as [av|] eqn:Hav; [|by destruct lq].
  exists mn, mx, av, p. repeat split; try done.
  - apply Qc_leb_le.
    apply (Qc_mean_bounds mn mx lq av); [|done].
    destruct (col_min_least Qc_order_laws lq mn (Qc_durations_ok lq) Hmn) as [_ Hlo].
    destruct (col_max_greatest Qc_order_laws lq mx (Qc_durations_ok lq) Hmx) as [_ Hhi].
    rewrite Forall_forall in Hlo, Hhi |- *. intros x Hx.
    split; apply Qc_leb_le; auto.
  - apply Qc_leb_le.
    apply (Qc_mean_bounds mn mx lq av); [|done].
    destruct (col_min_least Qc_order_laws lq mn (Qc_durations_ok lq) Hmn) as [_ Hlo].
    destruct (col_max_greatest Qc_order_laws lq mx (Qc_durations_ok lq) Hmx) as [_ Hhi].
    rewrite Forall_forall in Hlo, Hhi |- *. intros x Hx.
    split; apply Qc_leb_le; auto.
Qed.

Lemma summary_within_bounds_witness :
  known_durations <> [] /\ durations_ok known_durations /\
  known_durations_exact <> [] /\
  (exists mn mx p,
     col_min known_durations = Some mn /\ col_max known_durations = Some mx /\
     col_quantile95 known_durations = Some p /\
     nleb mn p = true /\ nleb p mx = true) /\
  (exists mn mx av p,
     col_min known_durations_exact = Some mn /\
     col_max known_durations_exact = Some mx /\
     col_mean known_durations_exact = Some av /\
     col_quantile95 known_durations_exact = Some p /\
     nleb mn av = true /\ nleb av mx = true /\
     nleb mn p = true /\ nleb p mx = true).
Proof.
  assert (H1 : known_durations <> []) by discriminate.
  assert (H2 : durations_ok known_durations) by (repeat constructor).
  assert (H3 : known_durations_exact <> []) by discriminate.
  exact (conj H1 (conj H2 (conj H3
           (summary_within_bounds known_durations known_durations_exact H1 H2 H3)))).
Defined.

(** C6 (counterexample): the same three durations in two orders. The sum is
    accumulated in column order, so the binary64 mean and throughput differ
    in their last bits. *)
Lemma shuffled_input_changes_summary :
  rising ≡ₚ falling /\
  durations_ok rising /\
  summarize rising =
    Some (mkSummary 0.1 0.20000000000000004 0.3 4.9999999999999991)%float /\
  summarize falling =
    Some (mkSummary 0.1 0.19999999999999998 0.3 5)%float /\
  summarize rising <> summarize falling.
Proof.
  split.
  { change falling with (rev rising). apply Permutation_rev. }
  split; [by repeat constructor|].
  assert (E1 : summarize rising =
    Some (mkSummary 0.1 0.20000000000000004 0.3 4.9999999999999991)%float)
    by reflexivity.
  assert (E2 : summarize falling =
    Some (mkSummary 0.1 0.19999999999999998 0.3 5)%float) by reflexivity.
  repeat split; done.
Qed.

(** C6 (amended): the summary is a function of the duration column alone.
    Its min and p95 are the same for every permutation of the column; in
    exact arithmetic the whole summary is. *)
Theorem summary_order_independence (lf lf' : list float) (lq lq' : list Qc) :
  lf ≡ₚ lf' -> durations_ok lf -> lq ≡ₚ lq' ->
  (col_min lf = col_min lf' /\ col_quantile95 lf = col_quantile95 lf') /\
  summarize lq = summarize lq'.
Proof.
  intros HPf Hok HPq. split; [split|].
  - by apply (col_min_permutation float_order_laws).
  - by apply (col_quantile95_permutation float_order_laws).
  - by apply Qc_summarize_permutation.
Qed.

Lemma summary_order_independence_witness :
  rising ≡ₚ falling /\ durations_ok rising /\
  known_durations_exact ≡ₚ rev known_durations_exact /\
  (col_min rising = col_min falling /\
   col_quantile95 rising = col_quantile95 falling) /\
  summarize known_durations_exact = summarize (rev known_durations_exact).
Proof.
  assert (H1 : rising ≡ₚ falling) by apply (Permutation_rev rising).
  assert (H2 : durations_ok rising) by (repeat constructor).
  assert (H3 : known_durations_exact ≡ₚ rev known_durations_exact)
    by apply Permutation_rev.
  exact (conj H1 (conj H2 (conj H3
           (summary_order_independence rising falling known_durations_exact
              (rev known_durations_exact) H1 H2 H3)))).
Defined.

(** ** The dispatcher *)

Lemma dict_get_present (d : list (string * pyval)) (key : string)
    (default v : pyval) :
  NoDup d.*1 -> (key, v) ∈ d -> dict_get d key default = v.
Proof.
  induction d as [|[k x] rest IH]; intros Hnd Hin; simpl.
  - by apply elem_of_nil in Hin.
  - simpl in Hnd. apply NoDup_cons in Hnd as [Hk Hnd].
    apply elem_of_cons in Hin as [[= <- <-] | Hin].
    + by rewrite String.eqb_refl.
    + destruct (String.eqb_spec k key) as [-> | _]; [|by apply IH].
      exfalso. apply Hk. apply list_elem_of_fmap. by exists (key, v).
Qed.

Lemma dict_get_absent (d : list (string * pyval)) (key : string)
    (default : pyval) :
  (forall v, (key, v) ∉ d) -> dict_get d key default = default.
Proof.
  induction d as [|[k x] rest IH]; intros Hout; simpl; [done|].
  destruct (String.eqb_spec k key) as [-> | _].
  - exfalso. apply (Hout x), list_elem_of_here.
  - apply IH. intros v Hv. apply (Hout v). by apply list_elem_of_further.
Qed.

(** C7: a response whose body parses to a dict always yields a record. Its
    size is the length of [str] of the output field, and 0 when there is no
    output field; its cost is the cost field, and [None] when there is none. *)
Theorem send_query_size_and_cost (start now : float)
    (d : list (string * pyval)) :
  NoDup d.*1 ->
  exists r,
    send_query start now (Reply (Some (PyDict d))) = Ok r /\
    duration r = (now - start)%float /\
    (forall v, ("output"%string, v) ∈ d -> size r = String.length (py_str v)) /\
    ((forall v, ("output"%string, v) ∉ d) -> size r = 0) /\
    (forall c, ("cost"%string, c) ∈ d -> cost r = c) /\
    ((forall c, ("cost"%string, c) ∉ d) -> cost r = PyNone).
Proof.
  intros Hnd. eexists. split; [reflexivity|]. simpl.
  split; [done|]. split; [|split; [|split]].
  - intros v Hv. by rewrite (dict_get_present d _ _ v Hnd Hv).
  - intros Hout. by rewrite (dict_get_absent d _ _ Hout).
  - intros c Hc. by rewrite (dict_get_present d _ _ c Hnd Hc).
  - intros Hout. by rewrite (dict_get_absent d _ _ Hout).
Qed.

Lemma send_query_size_and_cost_witness :
  NoDup [("output"%string, PyList [PyInt 1; PyInt 2])].*1 /\
  exists r,
    send_query 1%float 1.5%float
      (Reply (Some (PyDict [("output"%string, PyList [PyInt 1; PyInt 2])])))
      = Ok r /\
    duration r = (1.5 - 1)%float /\
    (forall v, ("output"%string, v) ∈ [("output"%string, PyList [PyInt 1; PyInt 2])] ->
       size r = String.length (py_str v)) /\
    ((forall v, ("output"%string, v) ∉ [("output"%string, PyList [PyInt 1; PyInt 2])]) ->
       size r = 0) /\
    (forall c, ("cost"%string, c) ∈ [("output"%string, PyList [PyInt 1; PyInt 2])] ->
       cost r = c) /\
    ((forall c, ("cost"%string, c) ∉ [("output"%string, PyList [PyInt 1; PyInt 2])]) ->
       cost r = PyNone).
Proof.
  assert (H : NoDup [("output"%string, PyList [PyInt 1; PyInt 2])].*1).
  { simpl. apply NoDup_singleton. }
  exact (conj H (send_query_size_and_cost 1%float 1.5%float _ H)).
Defined.

(** The sizes the dispatcher records for a list, for a string, for a JSON
    null that is present, and for a missing output field. *)
Example send_query_sizes :
  send_query 1%float 1.5%float
    (Reply (Some (PyDict [("output"%string, PyList [PyInt 1; PyInt 2]);
                          ("cost"%string, PyFloat "0.25")])))
    = Ok (mkRecord 0.5%float 6 (PyFloat "0.25")) /\
  send_query 1%float 1.5%float
    (Reply (Some (PyDict [("output"%string, PyStr "abc")])))
    = Ok (mkRecord 0.5%float 3 PyNone) /\
  send_query 1%float 1.5%float
    (Reply (Some (PyDict [("output"%string, PyNone)])))
    = Ok (mkRecord 0.5%float 4 PyNone) /\
  send_query 1%float 1.5%float (Reply (Some (PyDict [])))
    = Ok (mkRecord 0.5%float 0 PyNone).
Proof. repeat split; reflexivity. Qed.

(** ** The coordinator *)

Lemma gather_no_queries (env : Env) : gather env [] = Gathered [].
Proof.
  unfold gather. simpl.
  assert (H : forall arr j, deliver env [] [] j arr = Ok []).
  { induction arr as [|i rest IH]; intros j; simpl; [done|]. apply IH. }
  by rewrite H.
Qed.

(** C8: whenever the gather hands a result list to the rest of [main], the
    list has exactly one record per query and every dispatch has been resumed
    by an arrival, and [main] goes on with that list; whenever it does not,
    nothing is aggregated, printed or written. *)
Theorem aggregation_waits_for_all_dispatches (env : Env) (qs : list Query)
    (w : World) :
  match gather env qs with
  | Gathered rs =>
    length rs = length qs /\
    (forall i, i < length qs -> i ∈ arrival env) /\
    main_on env qs w = report rs w
  | Failed e => main_on env qs w = (w, Uncaught e)
  | Blocked => main_on env qs w = (w, Hung)
  end.
Proof.
  unfold main_on. destruct (gather env qs) as [rs|e|] eqn:Hg; try done.
  destruct (gathered_records env qs rs Hg) as [Hlen Hall].
  repeat split; try done.
  intros i Hi. destruct (Hall i Hi) as (j & _ & _ & Hj & _).
  by eapply list_elem_of_lookup_2.
Qed.

(** A run with three dispatches: all three records reach the summary. *)
Example three_dispatches_three_records :
  exists rs, gather out_of_order three_queries = Gathered rs /\ length rs = 3.
Proof. eexists. split; reflexivity. Qed.

(** The script's own batch: ten queries answered in launch order give ten
    records, and [main] completes. *)
Example main_ten_queries :
  (exists rs,
     gather (mkEnv ticks answer (seq 0 10)) QUERIES = Gathered rs /\
     length rs = 10) /\
  (main (mkEnv ticks answer (seq 0 10)) fresh_world).2 = Completed.
Proof. split; [eexists; split|]; reflexivity. Qed.

(** C10: in the list the gather returns, the record at index [i] is the one
    dispatch [i] made: from the clock reading taken when task [i] started,
    the reading taken when its response resumed it (the [j]-th arrival,
    whatever [j] is), and the response to query [i]. *)
Theorem gather_preserves_query_order (env : Env) (qs : list Query)
    (rs : list MeasurementRecord) (i : nat) :
  gather env qs = Gathered rs -> i < length qs ->
  exists j q r,
    arrival env !! j = Some i /\ qs !! i = Some q /\
    send_query (clock env i) (clock env (length qs + j)) (server env j q)
      = Ok r /\
    rs !! i = Some r.
Proof.
  intros Hg Hi. destruct (gathered_records env qs rs Hg) as [_ Hall]. auto.
Qed.

Lemma gather_preserves_query_order_witness :
  gather out_of_order three_queries
    = Gathered [mkRecord 4%float 1 (PyInt 1); mkRecord 4%float 2 (PyInt 2);
                mkRecord 1%float 3 (PyInt 0)] /\
  2 < length three_queries /\
  exists j q r,
    arrival out_of_order !! j = Some 2 /\ three_queries !! 2 = Some q /\
    send_query (clock out_of_order 2)
      (clock out_of_order (length three_queries + j)) (server out_of_order j q)
      = Ok r /\
    [mkRecord 4%float 1 (PyInt 1); mkRecord 4%float 2 (PyInt 2);
     mkRecord 1%float 3 (PyInt 0)] !! 2 = Some r.
Proof.
  assert (H1 : gather out_of_order three_queries
    = Gathered [mkRecord 4%float 1 (PyInt 1); mkRecord 4%float 2 (PyInt 2);
                mkRecord 1%float 3 (PyInt 0)]) by reflexivity.
  assert (H2 : 2 < length three_queries) by (simpl; lia).
  exact (conj H1 (conj H2
           (gather_preserves_query_order out_of_order three_queries _ 2 H1 H2))).
Defined.

(** ** Failures *)

(** C4 (counterexample): three dispatches, the second response to arrive is a
    refused connection (or a body that is not JSON). The exception leaves the
    gather, no record is collected, and [main] ends on it without output. *)
Lemma dispatch_failure_escapes_the_gather :
  gather one_refused three_queries = Failed TransportError /\
  main_on one_refused three_queries fresh_world
    = (fresh_world, Uncaught TransportError) /\
  gather one_garbled three_queries = Failed JSONDecodeError /\
  main_on one_garbled three_queries fresh_world
    = (fresh_world, Uncaught JSONDecodeError).
Proof. repeat split; reflexivity. Qed.

(** C4 (amended): when a dispatch meets a transport-level failure or a body
    that is not JSON, an exception leaves the gather (that of the first
    dispatch to fail): the batch is abandoned, no record reaches the summary,
    nothing is printed or written, and the process exits with status 1. *)
Theorem dispatch_failure_aborts_the_run (env : Env) (qs : list Query)
    (w : World) (j i : nat) (q : Query) :
  arrival env !! j = Some i ->
  (forall j', j' < j -> arrival env !! j' <> Some i) ->
  qs !! i = Some q ->
  server env j q = ConnectFailed \/ server env j q = Reply None ->
  exists e,
    gather env qs = Failed e /\
    main_on env qs w = (w, Uncaught e) /\
    exit_status (Uncaught e) = Some 1%Z.
Proof.
  intros Hj Hfirst Hq Hfail.
  assert (Hi : i < length qs) by (by eapply lookup_lt_Some).
  assert (He0 : exists e0, forall now,
             send_query (clock env i) now (server env (0 + j) q) = Raise e0).
  { simpl. destruct Hfail as [-> | ->]; eexists; intros now; reflexivity. }
  destruct He0 as [e0 He0].
  destruct (deliver_raises env qs (arrival env) (launch env qs) 0 j i q
              (clock env i) e0 (launch_lookup env qs i Hi) Hq Hj Hfirst He0)
    as [e He].
  exists e. unfold main_on, gather. rewrite He. done.
Qed.

Lemma dispatch_failure_aborts_the_run_witness :
  arrival one_refused !! 1 = Some 0 /\
  (forall j', j' < 1 -> arrival one_refused !! j' <> Some 0) /\
  three_queries !! 0 = Some "a"%string /\
  (server one_refused 1 "a"%string = ConnectFailed \/
   server one_refused 1 "a"%string = Reply None) /\
  exists e,
    gather one_refused three_queries = Failed e /\
    main_on one_refused three_queries fresh_world
      = (fresh_world, Uncaught e) /\
    exit_status (Uncaught e) = Some 1%Z.
Proof.
  assert (H1 : arrival one_refused !! 1 = Some 0) by reflexivity.
  assert (H2 : forall j', j' < 1 -> arrival one_refused !! j' <> Some 0).
  { intros j' Hj'. assert (j' = 0) as -> by lia. discriminate. }
  assert (H3 : three_queries !! 0 = Some "a"%string) by reflexivity.
  assert (H4 : server one_refused 1 "a"%string = ConnectFailed \/
               server one_refused 1 "a"%string = Reply None)
    by (left; reflexivity).
  exact (conj H1 (conj H2 (conj H3 (conj H4
           (dispatch_failure_aborts_the_run one_refused three_queries
              fresh_world 1 0 "a"%string H1 H2 H3 H4))))).
Defined.

(** ** The degenerate inputs *)

Lemma floats_of_durations (rs : list MeasurementRecord) :
  floats_of (map (fun r => CFloat (duration r)) rs) = map duration rs.
Proof.
  induction rs as [|r rs IH]; [done|].
  change (duration r :: floats_of (map (fun r => CFloat (duration r)) rs)
          = duration r :: map duration rs).
  by rewrite IH.
Qed.

Lemma select_summary_of_records (rs : list MeasurementRecord) :
  rs <> [] ->
  select_summary (pl_DataFrame rs)
  = Ok [ ("min"%string, [cell_of_option (col_min (map duration rs))]);
         ("avg"%string, [cell_of_option (col_mean (map duration rs))]);
         ("p95"%string, [cell_of_option (col_quantile95 (map duration rs))]);
         ("throughput"%string, [CFloat (throughput (map duration rs))]) ].
Proof.
  intros Hrs. destruct rs as [|r0 rs]; [done|].
  rewrite <- (floats_of_durations (r0 :: rs)). reflexivity.
Qed.

Lemma write_csv_ok (df : DataFrame) (path : string) (w : World) :
  path ∉ denied w -> has_nested df = false ->
  write_csv df path w
  = (mkWorld (stdout w) (<[path := to_csv df]> (files w)) (denied w), None).
Proof.
  intros Hp Hn. unfold write_csv. rewrite Hn. by rewrite decide_False.
Qed.

Lemma write_csv_None (df : DataFrame) (path : string) (w w' : World) :
  write_csv df path w = (w', None) ->
  w' = mkWorld (stdout w) (<[path := to_csv df]> (files w)) (denied w).
Proof.
  unfold write_csv. destruct (decide (path ∈ denied w)); [discriminate|].
  destruct (has_nested df); [discriminate|]. by intros [= <-].
Qed.

(** A completed report: the results were not empty, the summary was printed
    and the frame of results was written at the report path. *)
Lemma report_completed (rs : list MeasurementRecord) (w w' : World) :
  report rs w = (w', Completed) ->
  exists summary,
    rs <> [] /\ select_summary (pl_DataFrame rs) = Ok summary /\
    w' = mkWorld (stdout w ++ [summary])
                 (<[report_path := to_csv (pl_DataFrame rs)]> (files w))
                 (denied w).
Proof.
  unfold report. intros H.
  destruct (select_summary (pl_DataFrame rs)) as [summary|e] eqn:Hs;
    [|discriminate].
  exists summary. split; [by intros ->|]. split; [done|].
  destruct (write_csv (pl_DataFrame rs) report_path (print summary w))
    as [w2 [e|]] eqn:Hw; [discriminate|].
  injection H as <-. by apply write_csv_None in Hw.
Qed.

Lemma digits2_pos_iter_xO (p k : positive) :
  Zpos (digits2_pos (Pos.iter xO p k)) = (Zpos (digits2_pos p) + Zpos k)%Z.
Proof.
  induction k as [|k IH] using Pos.peano_ind.
  - simpl. lia.
  - rewrite Pos.iter_succ. simpl. rewrite Pos2Z.inj_succ, IH. lia.
Qed.

Lemma digits2_pos_lower (p : positive) :
  (2 ^ (Zpos (digits2_pos p) - 1) <= Zpos p)%Z.
Proof.
  induction p as [p IH|p IH|]; simpl digits2_pos.
  - rewrite Pos2Z.inj_succ.
    replace (Z.succ (Zpos (digits2_pos p)) - 1)%Z
      with (Z.succ (Zpos (digits2_pos p) - 1))%Z by lia.
    rewrite Z.pow_succ_r by lia. lia.
  - rewrite Pos2Z.inj_succ.
    replace (Z.succ (Zpos (digits2_pos p)) - 1)%Z
      with (Z.succ (Zpos (digits2_pos p) - 1))%Z by lia.
    rewrite Z.pow_succ_r by lia. lia.
  - simpl. lia.
Qed.

Lemma digits2_pos_small (p : positive) :
  (Zpos p < 2 ^ 53)%Z -> (Zpos (digits2_pos p) <= 53)%Z.
Proof.
  intros Hp. pose proof (digits2_pos_lower p) as Hl.
  destruct (Z_le_gt_dec (Zpos (digits2_pos p)) 53) as [|Hgt]; [done|].
  exfalso.
  assert (2 ^ 53 <= 2 ^ (Zpos (digits2_pos p) - 1))%Z
    by (apply Z.pow_le_mono_r; lia).
  lia.
Qed.

(** A positive integer below 2^53 converts to a finite positive binary64
    value: the mantissa is shifted left to 53 bits, nothing is rounded. *)
Lemma binary_normalize_small (p : positive) :
  (Zpos p < 2 ^ 53)%Z ->
  exists m e,
    binary_normalize prec emax (Zpos p) 0 false = S754_finite false m e.
Proof.
  intros Hp. pose proof (digits2_pos_small p Hp) as Hd.
  assert (Hd1 : (1 <= Zpos (digits2_pos p))%Z) by lia.
  unfold binary_normalize, binary_round.
  set (d := Zpos (digits2_pos p)) in *.
  assert (Hfexp : fexp prec emax (d + 0) = (d - 53)%Z).
  { unfold fexp, emin, prec, emax. lia. }
  rewrite Hfexp. unfold shl_align.
  assert (Haux : forall mz ez,
            Zpos (digits2_pos mz) = 53%Z -> (-52 <= ez <= 0)%Z ->
            binary_round_aux prec emax false (Zpos mz) ez loc_Exact
            = S754_finite false mz ez).
  { intros mz ez Hmz Hez. unfold binary_round_aux, shr_fexp.
    cbn [Zdigits2 shr_record_of_loc]. rewrite Hmz.
    assert (Hf : (fexp prec emax (53 + ez) - ez = 0)%Z)
      by (unfold fexp, emin, prec, emax; lia).
    rewrite Hf. cbn [shr shr_m loc_of_shr_record round_nearest_even Zdigits2
                     shr_record_of_loc].
    rewrite Hmz, Hf. cbn [shr shr_m].
    assert (Hle : (ez <=? emax - prec)%Z = true)
      by (apply Z.leb_le; unfold emax, prec; lia).
    by rewrite Hle. }
  destruct (d - 53 - 0)%Z as [|k|k] eqn:Hk.
  - eexists _, _. apply Haux; [fold d; lia|lia].
  - lia.
  - eexists _, _. apply Haux; [|lia].
    rewrite digits2_pos_iter_xO. fold d. lia.
Qed.

(** A positive row count divided by a zero sum is infinity. *)
Lemma float_of_nat_div_zero (n : nat) :
  0 < n -> (Z.of_nat n < 2 ^ 53)%Z ->
  (float_of_nat n / 0)%float = infinity.
Proof.
  intros Hn Hb. apply Prim2SF_inj. rewrite div_spec.
  unfold float_of_nat. rewrite of_uint63_spec.
  rewrite Uint63.of_Z_spec.
  rewrite Z.mod_small by (change Uint63.wB with (2 ^ 63)%Z; lia).
  destruct (Z.of_nat n) as [|p|p] eqn:Hz; try lia.
  destruct (binary_normalize_small p Hb) as (m & e & ->).
  reflexivity.
Qed.

(** C3 (counterexample): one dispatch whose two clock readings are equal. The
    sum of durations is zero; no error is raised: the throughput is the
    division-by-zero result, infinity, the report file is written and the
    exit status is 0. *)
Lemma zero_sum_divides_by_zero :
  gather frozen_clock ["a"%string] = Gathered [zero_record] /\
  col_sum (map duration [zero_record]) = 0%float /\
  main_on frozen_clock ["a"%string] fresh_world
    = (mkWorld
         [[("min"%string, [CFloat 0]); ("avg"%string, [CFloat 0]);
           ("p95"%string, [CFloat 0]);
           ("throughput"%string, [CFloat infinity])]]
         {[ report_path :=
              mkCsv ["duration"; "size"; "cost"]%string
                    [[CFloat 0; CInt 1; CObj (PyInt 0)]] ]}
         ∅,
       Completed) /\
  exit_status Completed = Some 0%Z.
Proof. repeat split; reflexivity. Qed.

(** C3 (amended): with zero records the run ends on an exception before any
    division: the frame has no duration column, the lookup raises, nothing is
    printed or written, and the exit status is 1. With a non-empty record set
    whose durations sum to zero no error is signalled: the throughput column
    holds the division-by-zero result, infinity, the summary is printed, and,
    when the report file can be written (its path is not denied and no cost
    is a list or a dict), the file is written and the exit status is 0. *)
Theorem empty_input_raises_zero_sum_does_not (env : Env) (w : World)
    (rs : list MeasurementRecord) :
  rs <> [] -> (Z.of_nat (length rs) < 2 ^ 53)%Z ->
  col_sum (map duration rs) = 0%float ->
  report_path ∉ denied w -> has_nested (pl_DataFrame rs) = false ->
  (main_on env [] w = (w, Uncaught (ColumnNotFoundError "duration")) /\
   exit_status (Uncaught (ColumnNotFoundError "duration")) = Some 1%Z) /\
  report rs w
    = (mkWorld
         (stdout w ++
            [[("min"%string, [cell_of_option (col_min (map duration rs))]);
              ("avg"%string, [cell_of_option (col_mean (map duration rs))]);
              ("p95"%string,
               [cell_of_option (col_quantile95 (map duration rs))]);
              ("throughput"%string, [CFloat infinity])]])
         (<[report_path := to_csv (pl_DataFrame rs)]> (files w))
         (denied w),
       Completed) /\
  exit_status Completed = Some 0%Z.
Proof.
  intros Hrs Hlen Hsum Hpath Hnest. split; [|split; [|reflexivity]].
  - unfold main_on. by rewrite gather_no_queries.
  - unfold report. rewrite (select_summary_of_records rs Hrs).
    rewrite write_csv_ok by done.
    unfold throughput. rewrite Hsum, length_map.
    change (ndiv (nof_nat (length rs)) 0%float)
      with (float_of_nat (length rs) / 0)%float.
    rewrite float_of_nat_div_zero; [done| |done].
    destruct rs; [done|simpl; lia].
Qed.

Lemma empty_input_raises_zero_sum_does_not_witness :
  [zero_record] <> [] /\ (Z.of_nat (length [zero_record]) < 2 ^ 53)%Z /\
  col_sum (map duration [zero_record]) = 0%float /\
  (report_path ∉ denied fresh_world) /\
  has_nested (pl_DataFrame [zero_record]) = false /\
  (main_on frozen_clock [] fresh_world
     = (fresh_world, Uncaught (ColumnNotFoundError "duration")) /\
   exit_status (Uncaught (ColumnNotFoundError "duration")) = Some 1%Z) /\
  report [zero_record] fresh_world
    = (mkWorld
         (stdout fresh_world ++
            [[("min"%string,
               [cell_of_option (col_min (map duration [zero_record]))]);
              ("avg"%string,
               [cell_of_option (col_mean (map duration [zero_record]))]);
              ("p95"%string,
               [cell_of_option (col_quantile95 (map duration [zero_record]))]);
              ("throughput"%string, [CFloat infinity])]])
         (<[report_path := to_csv (pl_DataFrame [zero_record])]>
            (files fresh_world))
         (denied fresh_world),
       Completed) /\
  exit_status Completed = Some 0%Z.
Proof.
  assert (H1 : [zero_record] <> []) by discriminate.
  assert (H2 : (Z.of_nat (length [zero_record]) < 2 ^ 53)%Z)
    by (simpl; lia).
  assert (H3 : col_sum (map duration [zero_record]) = 0%float) by reflexivity.
  assert (H4 : report_path ∉ denied fresh_world) by (simpl; set_solver).
  assert (H5 : has_nested (pl_DataFrame [zero_record]) = false)
    by reflexivity.
  exact (conj H1 (conj H2 (conj H3 (conj H4 (conj H5
           (empty_input_raises_zero_sum_does_not frozen_clock fresh_world
              [zero_record] H1 H2 H3 H4 H5)))))).
Defined.

(** ** The report *)

(** C2: after a successful run of three dispatches, the file at the report
    path holds the three measurement rows under the header duration, size,
    cost: not one row, and not the columns of the summary. *)
Lemma report_file_holds_the_measurements :
  (main_on out_of_order three_queries stale_world).2 = Completed /\
  files (main_on out_of_order three_queries stale_world).1 !! report_path
    = Some (mkCsv ["duration"; "size"; "cost"]%string
                  [[CFloat 4; CInt 1; CObj (PyInt 1)];
                   [CFloat 4; CInt 2; CObj (PyInt 2)];
                   [CFloat 1; CInt 3; CObj (PyInt 0)]]) /\
  ~ (exists c,
       files (main_on out_of_order three_queries stale_world).1 !! report_path
         = Some c /\
       header c = ["min"; "mean"; "p95"; "throughput"]%string /\
       length (rows c) = 1).
Proof.
  assert (E : files (main_on out_of_order three_queries stale_world).1
                !! report_path
    = Some (mkCsv ["duration"; "size"; "cost"]%string
                  [[CFloat 4; CInt 1; CObj (PyInt 1)];
                   [CFloat 4; CInt 2; CObj (PyInt 2)];
                   [CFloat 1; CInt 3; CObj (PyInt 0)]])) by reflexivity.
  split; [reflexivity|]. split; [exact E|].
  intros (c & Hc & Hh & _). rewrite E in Hc. injection Hc as <-.
  discriminate.
Qed.

(** The write can fail after the summary was printed. On a denied path the
    open raises and no file changes; with a list as cost the writer refuses
    the nested column and leaves the created file empty. Either way the
    process exits with status 1. *)
Example report_write_can_fail :
  main_on out_of_order three_queries locked_world
    = (mkWorld
         [[("min"%string, [CFloat 1]); ("avg"%string, [CFloat 3]);
           ("p95"%string, [CFloat 4]);
           ("throughput"%string, [CFloat 0.33333333333333331])]]
         ∅ {[ report_path ]},
       Uncaught OSError) /\
  report [mkRecord 1%float 2 (PyList [PyInt 1])] stale_world
    = (mkWorld
         [[("min"%string, [CFloat 1]); ("avg"%string, [CFloat 1]);
           ("p95"%string, [CFloat 1]); ("throughput"%string, [CFloat 1])]]
         {[ report_path := empty_file ]} ∅,
       Uncaught ComputeError) /\
  exit_status (Uncaught OSError) = Some 1%Z.
Proof. repeat split; reflexivity. Qed.

Lemma select_summary_shape (df summary : DataFrame) :
  select_summary df = Ok summary ->
  summary.*1 = ["min"; "avg"; "p95"; "throughput"]%string /\
  Forall (fun col => length col.2 = 1) summary.
Proof.
  unfold select_summary. intros H.
  destruct (get_column df "duration") as [cells|e]; [|discriminate].
  injection H as <-. split; [reflexivity|]. by repeat constructor.
Qed.

(** After a run that completed, exactly one frame has been printed: a single
    row of labelled fields in the column order min, avg, p95, throughput. The
    file at the report path holds what the run wrote, whatever it held
    before, and no other file is touched. *)
Theorem summary_row_and_report_overwrite (env : Env) (qs : list Query)
    (w w' : World) :
  main_on env qs w = (w', Completed) ->
  (exists summary,
     stdout w' = stdout w ++ [summary] /\
     summary.*1 = ["min"; "avg"; "p95"; "throughput"]%string /\
     Forall (fun col => length col.2 = 1) summary) /\
  (exists c,
     files w' !! report_path = Some c /\
     forall w2 w2',
       main_on env qs w2 = (w2', Completed) ->
       files w2' !! report_path = Some c) /\
  (forall p, p <> report_path -> files w' !! p = files w !! p).
Proof.
  unfold main_on. destruct (gather env qs) as [rs|e|]; try discriminate.
  intros H. apply report_completed in H as (summary & _ & Hs & ->).
  split; [|split].
  - exists summary. split; [done|].
    by apply (select_summary_shape (pl_DataFrame rs)).
  - exists (to_csv (pl_DataFrame rs)). split.
    + simpl. apply lookup_insert_eq.
    + intros w2 w2' H2.
      apply report_completed in H2 as (summary2 & _ & _ & ->).
      simpl. apply lookup_insert_eq.
  - intros p Hp. simpl. by apply lookup_insert_ne.
Qed.

Lemma summary_row_and_report_overwrite_witness :
  main_on out_of_order three_queries stale_world
    = ((main_on out_of_order three_queries stale_world).1, Completed) /\
  (exists summary,
     stdout (main_on out_of_order three_queries stale_world).1
       = stdout stale_world ++ [summary] /\
     summary.*1 = ["min"; "avg"; "p95"; "throughput"]%string /\
     Forall (fun col => length col.2 = 1) summary) /\
  (exists c,
     files (main_on out_of_order three_queries stale_world).1 !! report_path
       = Some c /\
     forall w2 w2',
       main_on out_of_order three_queries w2 = (w2', Completed) ->
       files w2' !! report_path = Some c) /\
  (forall p, p <> report_path ->
     files (main_on out_of_order three_queries stale_world).1 !! p
       = files stale_world !! p).
Proof.
  assert (H : main_on out_of_order three_queries stale_world
    = ((main_on out_of_order three_queries stale_world).1, Completed))
    by reflexivity.
  exact (conj H (summary_row_and_report_overwrite out_of_order three_queries
                   stale_world _ H)).
Defined.

(** * Further properties of the script *)

(** ** Progress of the gather *)

Lemma send_query_dict_Ok (start now : float) (d : list (string * pyval)) :
  exists r, send_query start now (Reply (Some (PyDict d))) = Ok r.
Proof. eexists. reflexivity. Qed.

(** With object replies, a resumption never raises, and the task it names
    has returned afterwards. *)
Lemma resume_dict (env : Env) (qs : list Query) (slots : list task) (j i : nat) :
  (forall q, exists d, server env j q = Reply (Some (PyDict d))) ->
  length slots = length qs ->
  exists slots',
    resume env qs slots j i = Ok slots' /\
    length slots' = length qs /\
    (i < length qs -> exists r, slots' !! i = Some (Returned r)).
Proof.
  intros Hd Hlen. unfold resume.
  destruct (slots !! i) as [[start|r0]|] eqn:Hs.
  - assert (Hi : i < length qs) by (rewrite <- Hlen; by eapply lookup_lt_Some).
    destruct (lookup_lt_is_Some_2 qs i Hi) as [q Hq]. rewrite Hq.
    destruct (Hd q) as [d ->].
    destruct (send_query_dict_Ok start (clock env (length qs + j)) d) as [r ->].
    simpl. eexists. split; [done|]. split; [by rewrite length_insert|].
    intros _. exists r. apply list_lookup_insert_eq. by rewrite Hlen.
  - eexists. split; [done|]. split; [done|]. eauto.
  - eexists. split; [done|]. split; [done|]. intros Hi.
    apply lookup_ge_None in Hs. lia.
Qed.

Lemma deliver_dict (env : Env) (qs : list Query) (arr : list nat) :
  forall (slots : list task) (j : nat),
    (forall j' q, exists d, server env j' q = Reply (Some (PyDict d))) ->
    length slots = length qs ->
    exists slots',
      deliver env qs slots j arr = Ok slots' /\
      forall i, i ∈ arr -> i < length qs ->
        exists r, slots' !! i = Some (Returned r).
Proof.
  induction arr as [|i0 rest IH]; intros slots j Hd Hlen; simpl.
  - eexists. split; [done|]. intros i Hi. by apply elem_of_nil in Hi.
  - destruct (resume_dict env qs slots j i0 (Hd j) Hlen)
      as (slots1 & H1 & Hlen1 & Hret).
    rewrite H1. simpl.
    destruct (IH slots1 (S j) Hd Hlen1) as (slots' & H2 & Hall).
    exists slots'. split; [done|]. intros i Hi Hlt.
    destruct (decide (i ∈ rest)) as [Hin | Hout]; [by apply Hall|].
    apply elem_of_cons in Hi as [-> | Hi]; [|done].
    destruct (Hret Hlt) as [r Hr]. exists r.
    by eapply deliver_keeps_returned.
Qed.

Lemma collect_all_returned (slots : list task) :
  (forall i, i < length slots -> exists r, slots !! i = Some (Returned r)) ->
  exists rs, collect slots = Some rs.
Proof.
  intros H. unfold collect.
  assert (Hs : is_Some (mapM returned slots)).
  { apply mapM_is_Some. apply Forall_lookup. intros i t Ht.
    destruct (H i (lookup_lt_Some _ _ _ Ht)) as [r Hr].
    assert (t = Returned r) as -> by congruence. by eexists. }
  destruct Hs as [rs Hrs]. by exists rs.
Qed.

(** When every dispatch gets its response and every response is a JSON
    object, no dispatch raises and the gather returns one record per query. *)
Theorem gather_returns_when_all_answer (env : Env) (qs : list Query) :
  (forall i, i < length qs -> i ∈ arrival env) ->
  (forall j q, exists d, server env j q = Reply (Some (PyDict d))) ->
  exists rs, gather env qs = Gathered rs /\ length rs = length qs.
Proof.
  intros Hall Hd.
  destruct (deliver_dict env qs (arrival env) (launch env qs) 0 Hd
              (launch_length env qs)) as (slots & Hdel & Hret).
  assert (Hlen : length slots = length qs).
  { rewrite (deliver_length _ _ _ _ _ _ Hdel). apply launch_length. }
  destruct (collect_all_returned slots) as [rs Hrs].
  { intros i Hi. rewrite Hlen in Hi. auto. }
  assert (Hg : gather env qs = Gathered rs).
  { unfold gather. by rewrite Hdel, Hrs. }
  exists rs. split; [done|].
  by destruct (gathered_records env qs rs Hg).
Qed.

Lemma gather_returns_when_all_answer_witness :
  (forall i, i < length three_queries -> i ∈ arrival out_of_order) /\
  (forall j q, exists d, server out_of_order j q = Reply (Some (PyDict d))) /\
  exists rs,
    gather out_of_order three_queries = Gathered rs /\
    length rs = length three_queries.
Proof.
  assert (H1 : forall i, i < length three_queries -> i ∈ arrival out_of_order).
  { intros i Hi. simpl in *.
    destruct i as [|[|[|i]]]; [| | |lia]; repeat constructor. }
  assert (H2 : forall j q,
             exists d, server out_of_order j q = Reply (Some (PyDict d)))
    by (intros j q; eexists; reflexivity).
  exact (conj H1 (conj H2
           (gather_returns_when_all_answer out_of_order three_queries H1 H2))).
Defined.

(** ** Which exception ends the run *)

Lemma resume_dict_Ok (env : Env) (qs : list Query) (slots : list task)
    (j i : nat) :
  (forall q, exists d, server env j q = Reply (Some (PyDict d))) ->
  exists slots', resume env qs slots j i = Ok slots'.
Proof.
  intros Hd. unfold resume.
  destruct (slots !! i) as [[start|r0]|]; try by eexists.
  destruct (qs !! i) as [q|]; try by eexists.
  destruct (Hd q) as [d ->]. by eexists.
Qed.

Lemma deliver_first_failure (env : Env) (qs : list Query) (arr : list nat) :
  forall (slots : list task) (j k i : nat) (q : Query) (start : float) (e : exn),
    slots !! i = Some (Suspended start) -> qs !! i = Some q ->
    arr !! k = Some i -> (forall k', k' < k -> arr !! k' <> Some i) ->
    (forall k' q', k' < k ->
       exists d, server env (j + k') q' = Reply (Some (PyDict d))) ->
    send_query start (clock env (length qs + (j + k))) (server env (j + k) q)
      = Raise e ->
    deliver env qs slots j arr = Raise e.
Proof.
  induction arr as [|i0 rest IH];
    intros slots j k i q start e Hs Hq Hk Hfirst Hbefore Hr.
  - done.
  - simpl. destruct k as [|k].
    + injection Hk as ->. rewrite Nat.add_0_r in Hr.
      unfold resume. by rewrite Hs, Hq, Hr.
    + simpl in Hk.
      assert (Hne : i0 <> i) by (intros ->; by apply (Hfirst 0); [lia|]).
      destruct (resume_dict_Ok env qs slots j i0) as [slots1 H1].
      { intros q'. destruct (Hbefore 0 q') as [d Hd]; [lia|].
        rewrite Nat.add_0_r in Hd. eauto. }
      rewrite H1. simpl.
      apply (IH slots1 (S j) k i q start); try done.
      * by rewrite (resume_other _ _ _ _ _ _ _ H1 Hne).
      * intros k' Hk'. apply (Hfirst (S k')). lia.
      * intros k' q' Hk'. destruct (Hbefore (S k') q') as [d Hd]; [lia|].
        replace (S j + k') with (j + S k') by lia. eauto.
      * by replace (S j + k) with (j + S k) by lia.
Qed.

(** The exception that ends the run is the one of the first response, in
    arrival order, that makes its dispatch raise: when every earlier response
    is a JSON object, [main] ends on exactly that exception. *)
Theorem first_failure_is_the_one_raised (env : Env) (qs : list Query)
    (w : World) (j i : nat) (q : Query) (e : exn) :
  arrival env !! j = Some i ->
  (forall j', j' < j -> arrival env !! j' <> Some i) ->
  qs !! i = Some q ->
  (forall j' q', j' < j ->
     exists d, server env j' q' = Reply (Some (PyDict d))) ->
  send_query (clock env i) (clock env (length qs + j)) (server env j q)
    = Raise e ->
  gather env qs = Failed e /\ main_on env qs w = (w, Uncaught e).
Proof.
  intros Hj Hfirst Hq Hbefore Hr.
  assert (Hi : i < length qs) by (by eapply lookup_lt_Some).
  assert (Hd : deliver env qs (launch env qs) 0 (arrival env) = Raise e).
  { apply (deliver_first_failure env qs (arrival env) (launch env qs) 0 j i q
             (clock env i) e); try done.
    by apply launch_lookup. }
  unfold main_on, gather. by rewrite Hd.
Qed.

Lemma first_failure_is_the_one_raised_witness :
  arrival one_garbled !! 1 = Some 0 /\
  (forall j', j' < 1 -> arrival one_garbled !! j' <> Some 0) /\
  three_queries !! 0 = Some "a"%string /\
  (forall j' q', j' < 1 ->
     exists d, server one_garbled j' q' = Reply (Some (PyDict d))) /\
  send_query (clock one_garbled 0) (clock one_garbled (length three_queries + 1))
    (server one_garbled 1 "a"%string) = Raise JSONDecodeError /\
  gather one_garbled three_queries = Failed JSONDecodeError /\
  main_on one_garbled three_queries fresh_world
    = (fresh_world, Uncaught JSONDecodeError).
Proof.
  assert (H1 : arrival one_garbled !! 1 = Some 0) by reflexivity.
  assert (H2 : forall j', j' < 1 -> arrival one_garbled !! j' <> Some 0).
  { intros j' Hj'. assert (j' = 0) as -> by lia. discriminate. }
  assert (H3 : three_queries !! 0 = Some "a"%string) by reflexivity.
  assert (H4 : forall j' q', j' < 1 ->
     exists d, server one_garbled j' q' = Reply (Some (PyDict d))).
  { intros j' q' Hj'. assert (j' = 0) as -> by lia. eexists. reflexivity. }
  assert (H5 : send_query (clock one_garbled 0)
                 (clock one_garbled (length three_queries + 1))
                 (server one_garbled 1 "a"%string) = Raise JSONDecodeError)
    by reflexivity.
  exact (conj H1 (conj H2 (conj H3 (conj H4 (conj H5
           (first_failure_is_the_one_raised one_garbled three_queries
              fresh_world 1 0 "a"%string JSONDecodeError H1 H2 H3 H4 H5)))))).
Defined.

(** ** The summary columns *)

Section Extremes.
Context {T : Type} {num : Number T} (laws : order_laws num).

Lemma is_greatest_unique (l : list T) (a b : T) :
  durations_ok l -> is_greatest a l -> is_greatest b l -> a = b.
Proof.
  intros Hl [Ha Hla] [Hb Hlb].
  unfold durations_ok in Hl. rewrite Forall_forall in Hl, Hla, Hlb.
  apply (nleb_antisym laws); auto.
Qed.

Lemma is_greatest_perm (l l' : list T) (a : T) :
  l ≡ₚ l' -> is_greatest a l -> is_greatest a l'.
Proof. intros HP [Ha Hl]. split; by rewrite <- HP. Qed.

(** The last value of an ascending list is its greatest. *)
Lemma ascending_last_greatest (s : list T) (p : T) :
  durations_ok s -> ascending s -> s !! (length s - 1) = Some p ->
  is_greatest p s.
Proof.
  intros Hok Hs. revert p.
  induction Hs as [|a s Hs IH Hall]; intros p Hp; [done|].
  inversion Hok as [|? ? Ha Hok']; subst.
  destruct s as [|b s'].
  - injection Hp as <-. split; [apply list_elem_of_here|].
    constructor; [by apply (leb_refl laws)|constructor].
  - assert (Hp' : (b :: s') !! (length (b :: s') - 1) = Some p).
    { simpl in *. by rewrite Nat.sub_0_r in *. }
    destruct (IH Hok' p Hp') as [Hin Hge].
    split; [by apply list_elem_of_further|].
    constructor; [|done]. rewrite Forall_forall in Hall. by apply Hall.
Qed.
End Extremes.

Lemma nearest_rank_small (n : nat) : 0 < n <= 11 -> nearest_rank n = n - 1.
Proof.
  intros Hn. pose proof (nearest_rank_nearest n). lia.
Qed.

(** With at most eleven durations, the script's batch of ten included, the
    p95 column holds the largest duration: the nearest rank to
    [0.95 * (n - 1)] is then the last index of the sorted column. *)
Theorem p95_is_max_up_to_eleven (l : list float) :
  l <> [] -> length l <= 11 -> durations_ok l ->
  col_quantile95 l = col_max l.
Proof.
  intros Hl Hlen Hok.
  destruct (col_quantile95_is_Some l Hl) as (p & Hp & _).
  destruct (col_max l) as [mx|] eqn:Hmx; [|by destruct l].
  rewrite Hp. f_equal.
  apply (is_greatest_unique float_order_laws l); [done| |].
  - apply (is_greatest_perm (sort_values l)); [apply sort_values_perm|].
    apply (ascending_last_greatest float_order_laws).
    + unfold durations_ok. by rewrite sort_values_perm.
    + by apply (sort_values_ascending float_order_laws).
    + rewrite sort_values_length. unfold col_quantile95 in Hp.
      rewrite nearest_rank_small in Hp; [done|].
      destruct l; [done|simpl in *; lia].
  - by apply (col_max_greatest float_order_laws).
Qed.

Lemma p95_is_max_up_to_eleven_witness :
  known_durations <> [] /\ length known_durations <= 11 /\
  durations_ok known_durations /\
  col_quantile95 known_durations = col_max known_durations.
Proof.
  assert (H1 : known_durations <> []) by discriminate.
  assert (H2 : length known_durations <= 11) by (simpl; lia).
  assert (H3 : durations_ok known_durations) by (repeat constructor).
  exact (conj H1 (conj H2 (conj H3
           (p95_is_max_up_to_eleven known_durations H1 H2 H3)))).
Defined.

(** The min column holds one of the durations, and no duration is smaller. *)
Theorem summary_min_is_smallest (l : list float) (s : Summary float) :
  durations_ok l -> summarize l = Some s ->
  s_min s ∈ l /\ forall x, x ∈ l -> nleb (s_min s) x = true.
Proof.
  intros Hok Hs. unfold summarize in Hs.
  destruct (col_min l) as [mn|] eqn:Hmn; [|discriminate].
  destruct (col_mean l) as [av|]; [|discriminate].
  destruct (col_quantile95 l) as [p|]; [|discriminate].
  injection Hs as <-. simpl.
  destruct (col_min_least float_order_laws l mn Hok Hmn) as [Hin Hall].
  split; [done|]. by rewrite Forall_forall in Hall.
Qed.

Lemma summary_min_is_smallest_witness :
  durations_ok falling /\
  summarize falling
    = Some (mkSummary 0.1 0.19999999999999998 0.3 5)%float /\
  s_min (mkSummary 0.1 0.19999999999999998 0.3 5)%float ∈ falling /\
  forall x, x ∈ falling ->
    nleb (s_min (mkSummary 0.1 0.19999999999999998 0.3 5)%float) x = true.
Proof.
  assert (H1 : durations_ok falling) by (repeat constructor).
  assert (H2 : summarize falling
    = Some (mkSummary 0.1 0.19999999999999998 0.3 5)%float) by reflexivity.
  exact (conj H1 (conj H2 (summary_min_is_smallest falling _ H1 H2))).
Defined.

(** In exact arithmetic the throughput column is the reciprocal of the avg
    column: [count / sum] times [sum / count] is 1 whenever the durations do
    not sum to zero. *)
Theorem throughput_is_reciprocal_of_mean (l : list Qc) :
  col_sum l <> 0%Qc ->
  exists av, col_mean l = Some av /\ (throughput l * av = 1)%Qc.
Proof.
  intros Hsum. destruct l as [|x xs]; [done|].
  eexists. split; [reflexivity|].
  set (l := x :: xs) in *.
  assert (Hn : Qc_of_nat (length l) <> 0%Qc).
  { intros E. assert (Hp : (0 < Qc_of_nat (length l))%Qc)
      by (apply Qc_of_nat_pos; simpl; lia).
    rewrite E in Hp. by apply Qclt_not_eq in Hp. }
  change ((Qc_of_nat (length l) / col_sum l
           * (col_sum l / Qc_of_nat (length l)))%Qc = 1%Qc).
  field. by split.
Qed.

Lemma throughput_is_reciprocal_of_mean_witness :
  col_sum known_durations_exact <> 0%Qc /\
  exists av,
    col_mean known_durations_exact = Some av /\
    (throughput known_durations_exact * av = 1)%Qc.
Proof.
  assert (H : col_sum known_durations_exact <> 0%Qc).
  { intros E. apply (f_equal (fun x : Qc => Qnum (this x))) in E.
    vm_compute in E. discriminate. }
  exact (conj H (throughput_is_reciprocal_of_mean known_durations_exact H)).
Defined.

(** ** What the run leaves behind *)

Lemma rows_of_columns {A : Type} (rs : list A) (f g h : A -> cell) :
  map (fun i => [default CNull (map f rs !! i);
                 default CNull (map g rs !! i);
                 default CNull (map h rs !! i)])
      (seq 0 (length rs))
  = map (fun r => [f r; g r; h r]) rs.
Proof.
  apply list_eq. intros i.
  rewrite !list_lookup_fmap.
  destruct (decide (i < length rs)) as [Hi | Hi].
  - rewrite lookup_seq_lt by done. simpl.
    destruct (lookup_lt_is_Some_2 rs i Hi) as [r Hr].
    by rewrite !list_lookup_fmap, Hr.
  - rewrite lookup_seq_ge by lia.
    by rewrite (lookup_ge_None_2 rs i) by lia.
Qed.

Lemma to_csv_of_records (rs : list MeasurementRecord) :
  rs <> [] ->
  to_csv (pl_DataFrame rs)
  = mkCsv ["duration"; "size"; "cost"]%string
          (map (fun r => [CFloat (duration r); CInt (Z.of_nat (size r));
                          CObj (cost r)]) rs).
Proof.
  intros Hrs. destruct rs as [|r0 rs]; [done|].
  rewrite <- (rows_of_columns (r0 :: rs) (fun r => CFloat (duration r))
                (fun r => CInt (Z.of_nat (size r))) (fun r => CObj (cost r))).
  unfold to_csv, pl_DataFrame, height, row_of. rewrite length_map.
  reflexivity.
Qed.

(** After a successful run the report file holds, under the header
    duration, size, cost, one row per query in query order: the row at
    position [i] is the record of dispatch [i]. *)
Theorem report_file_lists_the_records (env : Env) (qs : list Query)
    (w w' : World) :
  main_on env qs w = (w', Completed) ->
  exists rs,
    gather env qs = Gathered rs /\ length rs = length qs /\
    files w' !! report_path
      = Some (mkCsv ["duration"; "size"; "cost"]%string
                (map (fun r => [CFloat (duration r); CInt (Z.of_nat (size r));
                                CObj (cost r)]) rs)).
Proof.
  unfold main_on. destruct (gather env qs) as [rs|e|] eqn:Hg; try discriminate.
  intros H. exists rs. split; [done|].
  split; [by destruct (gathered_records env qs rs Hg)|].
  apply report_completed in H as (summary & Hrs & _ & ->).
  cbn [files]. rewrite lookup_insert_eq. f_equal.
  by apply to_csv_of_records.
Qed.

Lemma report_file_lists_the_records_witness :
  main_on out_of_order three_queries fresh_world
    = ((main_on out_of_order three_queries fresh_world).1, Completed) /\
  exists rs,
    gather out_of_order three_queries = Gathered rs /\
    length rs = length three_queries /\
    files (main_on out_of_order three_queries fresh_world).1 !! report_path
      = Some (mkCsv ["duration"; "size"; "cost"]%string
                (map (fun r => [CFloat (duration r); CInt (Z.of_nat (size r));
                                CObj (cost r)]) rs)).
Proof.
  assert (H : main_on out_of_order three_queries fresh_world
    = ((main_on out_of_order three_queries fresh_world).1, Completed))
    by reflexivity.
  exact (conj H (report_file_lists_the_records out_of_order three_queries
                   fresh_world _ H)).
Defined.

(** The printed summary depends on the durations alone: two result lists
    with the same durations give the same summary, whatever their sizes and
    costs. *)
Theorem summary_ignores_size_and_cost (rs rs' : list MeasurementRecord) :
  map duration rs = map duration rs' ->
  select_summary (pl_DataFrame rs) = select_summary (pl_DataFrame rs').
Proof.
  intros E. destruct rs as [|r rs], rs' as [|r' rs']; try done.
  rewrite !select_summary_of_records by done. by rewrite E.
Qed.

Lemma summary_ignores_size_and_cost_witness :
  map duration [mkRecord 4%float 1 (PyInt 1); mkRecord 1%float 3 PyNone]
    = map duration [mkRecord 4%float 0 PyNone;
                    mkRecord 1%float 7 (PyFloat "0.5")] /\
  select_summary
    (pl_DataFrame [mkRecord 4%float 1 (PyInt 1); mkRecord 1%float 3 PyNone])
  = select_summary
      (pl_DataFrame [mkRecord 4%float 0 PyNone;
                     mkRecord 1%float 7 (PyFloat "0.5")]).
Proof.
  assert (H : map duration
                [mkRecord 4%float 1 (PyInt 1); mkRecord 1%float 3 PyNone]
    = map duration [mkRecord 4%float 0 PyNone;
                    mkRecord 1%float 7 (PyFloat "0.5")]) by reflexivity.
  exact (conj H (summary_ignores_size_and_cost _ _ H)).
Defined.

(** ** The sample files *)

Lemma string_length_app (a b : string) :
  String.length (a ++ b) = String.length a + String.length b.
Proof. induction a as [|c a IH]; simpl; [done|]. by rewrite IH. Qed.

Lemma string_app_cancel_r (a b t : string) :
  (a ++ t = b ++ t)%string -> a = b.
Proof.
  intros E.
  assert (Hlen : String.length a = String.length b).
  { apply (f_equal String.length) in E.
    rewrite !string_length_app in E. lia. }
  revert b E Hlen. induction a as [|c a IH]; intros [|c' b] E Hlen;
    try done.
  simpl in E, Hlen. injection E as -> E. f_equal. apply IH; [done|lia].
Qed.

Lemma file_path_inj (output_dir : string) (i j : nat) :
  file_path output_dir i = file_path output_dir j -> i = j.
Proof.
  unfold file_path, sample_name. intros E.
  apply String.app_inj in E. apply (String.app_inj "/") in E.
  apply (String.app_inj "sample_") in E.
  apply string_app_cancel_r in E. by apply pretty_nat_inj in E.
Qed.

Lemma write_samples_S {Frame : Type} (output_dir : string)
    (draw : nat -> Frame) (n : nat) (fs : gmap string Frame) :
  write_samples output_dir draw (S n) fs
  = <[file_path output_dir n := draw n]> (write_samples output_dir draw n fs).
Proof.
  unfold write_samples. rewrite seq_S, fold_left_app. reflexivity.
Qed.


(** The generator writes one file per iteration and no iteration overwrites
    another's: afterwards the file of iteration [idx] holds the frame drawn
    in that iteration, for every [idx] below the number of files, and every
    other path is as it was. *)
Theorem generate_writes_each_sample {Frame : Type} (output_dir : string)
    (draw : nat -> Frame) (fs : gmap string Frame) :
  (forall idx, idx < N_FILES ->
     generate output_dir draw fs !! file_path output_dir idx
       = Some (draw idx)) /\
  (forall p, (forall idx, idx < N_FILES -> p <> file_path output_dir idx) ->
     generate output_dir draw fs !! p = fs !! p).
Proof.
  unfold generate. generalize N_FILES. intros n.
  induction n as [|n [IH1 IH2]].
  - split; [intros idx Hidx; lia|]. intros p _. reflexivity.
  - rewrite write_samples_S. split.
    + intros idx Hidx. destruct (decide (idx = n)) as [-> | Hne].
      * apply lookup_insert_eq.
      * rewrite lookup_insert_ne.
        -- apply IH1. lia.
        -- intros E. apply file_path_inj in E. lia.
    + intros p Hp. rewrite lookup_insert_ne.
      * apply IH2. intros idx Hidx. apply Hp. lia.
      * intros E. by apply (Hp n); [lia|].
Qed.

(** The file the load test's queries read is the first one the generator
    writes into a directory named data. *)
Example queries_read_the_first_sample :
  file_path "data" 0 = "data/sample_0.parquet"%string /\
  Forall (fun q => exists rest,
            q = ("df = pl.read_parquet('" ++ file_path "data" 0 ++ rest)%string)
         QUERIES.
Proof.
  split; [reflexivity|]. unfold QUERIES.
  apply Forall_forall. intros q Hq. apply elem_of_replicate in Hq as [-> _].
  eexists. reflexivity.
Qed.
